(** * final.py: dataset normalizers and the spelling-error corruptor

    A shallow embedding of [src/final.py].  Python strings are sequences of
    code points, the pandas frames and the parsed JSON lines are lists of
    rows holding Python values, and the module-level [random] generator is an
    explicit state threaded through every call that draws from it. *)

From Stdlib Require Import Strings.String Strings.Ascii.
From Stdlib Require Import List ZArith NArith QArith Lia Bool Arith.
From Stdlib Require Import Sorting.Permutation Sorting.Sorted.
Import ListNotations.
Close Scope Q_scope.

Set Implicit Arguments.
Set Warnings "-register-all".

(** ** Python strings *)

Module PyStr.

(** A character is its Unicode code point. *)
Definition char := N.
Definition str := list char.

(** String literals of the source, read byte by byte (all are ASCII). *)
Definition lit (x : string) : str :=
  List.map N_of_ascii (list_ascii_of_string x).

Definition char_eqb : char -> char -> bool := N.eqb.

Definition str_eq_dec : forall a b : str, {a = b} + {a <> b} :=
  list_eq_dec N.eq_dec.

Definition str_eqb (a b : str) : bool :=
  if str_eq_dec a b then true else false.

(** [str.isspace] on one character: the code points CPython lists in
    [_PyUnicode_IsWhitespace]. *)
Definition is_space (c : char) : bool :=
  ((9 <=? c) && (c <=? 13) || (28 <=? c) && (c <=? 32)
   || (c =? 133) || (c =? 160) || (c =? 5760)
   || (8192 <=? c) && (c <=? 8202)
   || (c =? 8232) || (c =? 8233) || (c =? 8239) || (c =? 8287)
   || (c =? 12288))%N.

(** [s.lstrip()], [s.rstrip()] and [s.strip()] without argument. *)
Fixpoint lstrip (s : str) : str :=
  match s with
  | c :: s' => if is_space c then lstrip s' else s
  | [] => []
  end.

Definition rstrip (s : str) : str := rev (lstrip (rev s)).

Definition strip (s : str) : str := rstrip (lstrip s).

(** [s.split()] without argument: maximal runs of non-whitespace
    characters.  [cur] is the run being read, most recent character first. *)
Fixpoint split_from (cur : str) (s : str) : list str :=
  match s with
  | [] => match cur with [] => [] | _ => [rev cur] end
  | c :: s' =>
      if is_space c then
        match cur with
        | [] => split_from [] s'
        | _ => rev cur :: split_from [] s'
        end
      else split_from (c :: cur) s'
  end.

Definition split (s : str) : list str := split_from [] s.

(** [sep.join(ws)]. *)
Fixpoint join (sep : str) (ws : list str) : str :=
  match ws with
  | [] => []
  | [w] => w
  | w :: ws' => w ++ sep ++ join sep ws'
  end.

Fixpoint starts_with (p s : str) : bool :=
  match p, s with
  | [], _ => true
  | a :: p', b :: s' => char_eqb a b && starts_with p' s'
  | _ :: _, [] => false
  end.

(** [s.replace(old, new)] for a non-empty [old]: occurrences are replaced
    left to right and do not overlap.  [skip] counts the characters of an
    occurrence that was just replaced and are still to be passed over. *)
Fixpoint replace_from (old new : str) (skip : nat) (s : str) : str :=
  match s with
  | [] => []
  | c :: s' =>
      match skip with
      | S k => replace_from old new k s'
      | O =>
          if starts_with old s
          then new ++ replace_from old new (length old - 1) s'
          else c :: replace_from old new 0 s'
      end
  end.

Definition replace (old new s : str) : str := replace_from old new 0 s.

(** [s.lower()] on the Latin-1 range, which is all that
    [format_financial_news_for_evaluate] can meet: its file is decoded with
    [encoding='latin-1'], one code point below 256 per byte.  Other code
    points are left as they are. *)
Definition lower_char (c : char) : char :=
  (if (65 <=? c) && (c <=? 90) then c + 32
   else if (192 <=? c) && (c <=? 222) && negb (c =? 215) then c + 32
   else c)%N.

Definition lower (s : str) : str := List.map lower_char s.

(** A word as [split] produces them: not empty, no whitespace inside. *)
Definition wordlike (w : str) : Prop :=
  w <> [] /\ Forall (fun c => is_space c = false) w.

End PyStr.
Import PyStr.

(** ** Python values, exceptions and results *)

(** The values a CSV cell or a JSON document can hold.  A finite number is
    its exact value ([int] and [float] compare by value under [==]);
    [VNonFinite] stands for [nan], [inf] and [-inf].  A dict is the list of
    its items, keys distinct. *)
Inductive value : Type :=
| VNone
| VBool (b : bool)
| VNum (q : Q)
| VNonFinite
| VStr (s : str)
| VList (l : list value)
| VDict (d : list (str * value)).

Inductive exn : Type :=
| ValueError | IndexError | KeyError | AttributeError
| UnboundLocalError | JSONDecodeError.

(** What a call does: it returns, it raises, or it recurses deeper than the
    depth that was granted to it. *)
Inductive result (A : Type) : Type :=
| Ok (a : A)
| Raise (e : exn)
| OutOfFuel.
Arguments Raise {A} e.
Arguments OutOfFuel {A}.

(** The canonical record: one row of the frames the functions return. *)
Record record : Type := mkRecord {
  id : nat;
  text : str;
  sentiment : value
}.

(** Python truthiness, [bool(v)]. *)
Definition truthy (v : value) : bool :=
  match v with
  | VNone => false
  | VBool b => b
  | VNum q => negb (Qeq_bool q 0%Q)
  | VNonFinite => true
  | VStr s => match s with [] => false | _ => true end
  | VList l => match l with [] => false | _ => true end
  | VDict d => match d with [] => false | _ => true end
  end.

(** [v == x] for a finite float [x]: [True] is 1 and [False] is 0. *)
Definition eq_float (v : value) (x : Q) : bool :=
  match v with
  | VNum q => Qeq_bool q x
  | VBool b => Qeq_bool (if b then 1%Q else 0%Q) x
  | _ => false
  end.

(** [v in xs] for a list of floats. *)
Definition in_floats (v : value) (xs : list Q) : bool :=
  existsb (eq_float v) xs.

(** [d.get(k)] on the items of a dict. *)
Fixpoint dict_get (k : str) (d : list (str * value)) : value :=
  match d with
  | [] => VNone
  | (k', v) :: d' => if str_eqb k' k then v else dict_get k d'
  end.

(** [row[k]] on a pandas row, the list of its (column, cell) pairs. *)
Fixpoint row_get (k : str) (row : list (str * value)) : result value :=
  match row with
  | [] => Raise KeyError
  | (k', v) :: row' => if str_eqb k' k then Ok v else row_get k row'
  end.

(** A [str] method called on a value: [AttributeError] unless it is a [str]. *)
Definition as_str (v : value) : result str :=
  match v with
  | VStr s => Ok s
  | _ => Raise AttributeError
  end.

Definition rbind {A B : Type} (x : result A) (k : A -> result B) : result B :=
  match x with
  | Ok a => k a
  | Raise e => Raise e
  | OutOfFuel => OutOfFuel
  end.

Declare Scope result_scope.
Delimit Scope result_scope with result.
Notation "x <- e ;; k" := (rbind e (fun x => k))
  (at level 61, e at next level, right associativity) : result_scope.

(** ** The normalizers *)

Module Normalizer.
Local Open Scope result_scope.

(** [enumerate(file)] and [df.iterrows()] over a default [RangeIndex]:
    every item with its position, counted from [start]. *)
Fixpoint enumerate {A : Type} (start : nat) (items : list A)
  : list (nat * A) :=
  match items with
  | [] => []
  | x :: items' => (start, x) :: enumerate (S start) items'
  end.

(** A loop whose body either appends one record to [data] ([Some]),
    goes on to the next item without appending ([None], the source's
    [continue]), or raises. *)
Fixpoint for_each {A : Type} (body : nat -> A -> result (option record))
         (items : list (nat * A)) (data : list record)
  : result (list record) :=
  match items with
  | [] => Ok data
  | (idx, x) :: items' =>
      r <- body idx x ;;
      for_each body items'
               (match r with Some rec => data ++ [rec] | None => data end)
  end.

(** A pandas row: its cells by column name. *)
Definition row := list (str * value).

(** The body of the loop of [format_movie_reviews_for_evaluate]. *)
Definition movie_body (idx : nat) (r : row) : result (option record) :=
  review <- row_get (lit "review") r ;;
  review <- as_str review ;;
  let text := strip (replace (lit "<br />") (lit " ") review) in
  sentiment <- row_get (lit "sentiment") r ;;
  Ok (Some {| id := idx; text := text; sentiment := sentiment |}).

(** [df] is what [pd.read_csv(file)] returned. *)
Definition format_movie_reviews_for_evaluate (df : list row)
  : result (list record) :=
  for_each movie_body (enumerate 0 df) [].

(** The body of the loop of [format_fashion_reviews_for_evaluate].  A line
    is what [json.loads(line.strip())] made of it, [None] when it raised. *)
Definition fashion_body (idx : nat) (line : option value)
  : result (option record) :=
  review <- match line with
            | Some v => Ok v
            | None => Raise JSONDecodeError
            end ;;
  review <- match review with
            | VDict d => Ok d
            | _ => Raise AttributeError
            end ;;
  let review_text := dict_get (lit "reviewText") review in
  let overall := dict_get (lit "overall") review in
  if negb (truthy review_text) then Ok None
  else
    match
      (if in_floats overall [1%Q; 2%Q] then Some (lit "negative")
       else if eq_float overall 3%Q then Some (lit "neutral")
       else if in_floats overall [4%Q; 5%Q] then Some (lit "positive")
       else None)
    with
    | None => Ok None
    | Some sentiment =>
        review_text <- as_str review_text ;;
        Ok (Some {| id := idx; text := strip review_text;
                    sentiment := VStr sentiment |})
    end.

(** [lines] are the lines of the file, in order. *)
Definition format_fashion_reviews_for_evaluate (lines : list (option value))
  : result (list record) :=
  for_each fashion_body (enumerate 0 lines) [].

(** A row of the frame read with [names=["sentiment", "text"]]. *)
Record news_row : Type := mkNews {
  news_sentiment : value;
  news_text : value
}.

(** The body of the loop of [format_financial_news_for_evaluate]. *)
Definition news_body (idx : nat) (r : news_row) : result (option record) :=
  sentiment <- as_str (news_sentiment r) ;;
  let sentiment := lower (strip sentiment) in
  text <- as_str (news_text r) ;;
  let text := strip text in
  if negb (truthy (VStr sentiment)) || negb (truthy (VStr text))
  then Ok None
  else Ok (Some {| id := idx; text := text; sentiment := VStr sentiment |}).

(** [df] is what [pd.read_csv(fname, header=None, names=..., ...)]
    returned. *)
Definition format_financial_news_for_evaluate (df : list news_row)
  : result (list record) :=
  for_each news_body (enumerate 0 df) [].

End Normalizer.

(** ** Python sequences: indexing, slicing, item assignment *)

Module PySeq.
Local Open Scope Z_scope.

Definition len {A : Type} (l : list A) : Z := Z.of_nat (length l).

(** The bound of a slice, as Python clips it. *)
Definition clip (n i : Z) : nat :=
  Z.to_nat (if i <? 0 then Z.max 0 (n + i) else Z.min i n).

(** [l[:i]] and [l[i:]]. *)
Definition slice_to {A : Type} (i : Z) (l : list A) : list A :=
  firstn (clip (len l) i) l.

Definition slice_from {A : Type} (i : Z) (l : list A) : list A :=
  skipn (clip (len l) i) l.

(** [l[i]]: negative indices count from the end, [IndexError] out of
    range. *)
Definition item {A : Type} (l : list A) (i : Z) : result A :=
  let j := if i <? 0 then len l + i else i in
  if j <? 0 then Raise IndexError
  else match nth_error l (Z.to_nat j) with
       | Some x => Ok x
       | None => Raise IndexError
       end.

(** [l[i] = x] for a position [i] of [l]. *)
Fixpoint list_set {A : Type} (i : nat) (x : A) (l : list A) : list A :=
  match l, i with
  | [], _ => []
  | _ :: l', O => x :: l'
  | y :: l', S i' => y :: list_set i' x l'
  end.

End PySeq.
Import PySeq.

(** ** The random module *)

Module Random.

(** The generator: an endless tape of raw draws and the position of the
    next one.  Every function of the module reads one raw draw per value
    it needs and reduces it into the range asked for, so each outcome the
    library can produce is the image of some tape. *)
Record rng : Type := mkRng {
  tape : nat -> N;
  pos : nat
}.

Definition advance (g : rng) : rng := mkRng (tape g) (S (pos g)).

(** A computation that draws from the generator. *)
Definition M (A : Type) : Type := rng -> result (A * rng).

Definition ret {A : Type} (a : A) : M A := fun g => Ok (a, g).

Definition bind {A B : Type} (m : M A) (k : A -> M B) : M B :=
  fun g =>
    match m g with
    | Ok (a, g') => k a g'
    | Raise e => Raise e
    | OutOfFuel => OutOfFuel
    end.

Definition raise {A : Type} (e : exn) : M A := fun _ => Raise e.

Definition out_of_fuel {A : Type} : M A := fun _ => OutOfFuel.

(** A step that draws nothing. *)
Definition lift {A : Type} (x : result A) : M A :=
  fun g => match x with
           | Ok a => Ok (a, g)
           | Raise e => Raise e
           | OutOfFuel => OutOfFuel
           end.

Definition draw : M N := fun g => Ok (tape g (pos g), advance g).

(** [random._randbelow(n)] for [n > 0]. *)
Definition randbelow (n : nat) : M nat :=
  bind draw (fun k => ret (N.to_nat (k mod N.of_nat n))).

(** [random.randint(a, b)]: [randrange(a, b + 1)], which raises
    [ValueError] on an empty range. *)
Definition randint (a b : Z) : M Z :=
  let width := (b + 1 - a)%Z in
  if (0 <? width)%Z
  then bind (randbelow (Z.to_nat width)) (fun k => ret (a + Z.of_nat k)%Z)
  else raise ValueError.

(** [random.choice(seq)]. *)
Definition choice {A : Type} (seq : list A) : M A :=
  match seq with
  | [] => raise IndexError
  | _ =>
      bind (randbelow (length seq)) (fun k =>
        match nth_error seq k with
        | Some x => ret x
        | None => raise IndexError
        end)
  end.

(** The floats [random.random()] returns are the multiples of 2^-53 in
    [0, 1). *)
Definition unit_float (k : N) : Q :=
  Qmake (Z.of_N (k mod 9007199254740992)) 9007199254740992.

Definition random : M Q := bind draw (fun k => ret (unit_float k)).

(** The selection loop of [random.sample]: [pool] is the part of the
    library's pool list that is still live.  Each round returns [pool[j]]
    for a fresh [j] and moves the last live element into its place. *)
Fixpoint sample_loop {A : Type} (k : nat) (pool : list A) : M (list A) :=
  match k with
  | O => ret []
  | S k' =>
      bind (randbelow (length pool)) (fun j =>
        match nth_error pool j, nth_error pool (length pool - 1) with
        | Some x, Some y =>
            bind (sample_loop k' (removelast (list_set j y pool)))
                 (fun rest => ret (x :: rest))
        | _, _ => raise IndexError
        end)
  end.

(** [random.sample(population, k)].  CPython selects from a copy of the
    population whenever [n <= setsize], where [setsize] is 21 plus, for
    [k > 5], a power of 4 that is at least [3 * k]; so it does for [k = n],
    the only use the source makes of it. *)
Definition sample {A : Type} (population : list A) (k : nat) : M (list A) :=
  if k <=? length population
  then sample_loop k population
  else raise ValueError.

End Random.
Import Random.

Declare Scope rng_scope.
Delimit Scope rng_scope with rng.
Notation "x <- e ;; k" := (bind e (fun x => k))
  (at level 61, e at next level, right associativity) : rng_scope.

(** ** The corruptor *)

Module Corruptor.
Local Open Scope rng_scope.

Inductive error_type : Type :=
| substitution | transposition | omission | duplication | scramble.

Definition error_type_eqb (a b : error_type) : bool :=
  match a, b with
  | substitution, substitution | transposition, transposition
  | omission, omission | duplication, duplication
  | scramble, scramble => true
  | _, _ => false
  end.

Definition error_types : list error_type :=
  [substitution; transposition; omission; duplication; scramble].

Definition alphabet : str := lit "abcdefghijklmnopqrstuvwxyz".

(** The float literals of the source, as the binary64 values they denote. *)
Definition float_0_5 : Q := Qmake 1 2.
Definition float_0_2 : Q := Qmake 3602879701896397 18014398509481984.

(** [x < y] on finite floats. *)
Definition float_lt (x y : Q) : bool := negb (Qle_bool y x).

(** The single edit attempt of [introduce_error] (the draw of
    [error_type] and the [if]/[elif] chain), for a word the length test
    let through. *)
Definition edit_attempt (word : str) (severity : Z) : M str :=
  error_type <- choice error_types ;;
  if error_type_eqb error_type substitution then
    idx <- randint 0 (len word - 1) ;;
    replacement <- choice alphabet ;;
    ret (slice_to idx word ++ [replacement] ++ slice_from (idx + 1) word)
  else if error_type_eqb error_type transposition && (2 <? len word)%Z then
    idx <- randint 0 (len word - 2) ;;
    a <- lift (item word (idx + 1)) ;;
    b <- lift (item word idx) ;;
    ret (slice_to idx word ++ [a] ++ [b] ++ slice_from (idx + 2) word)
  else if error_type_eqb error_type omission then
    idx <- randint 0 (len word - 1) ;;
    ret (slice_to idx word ++ slice_from (idx + 1) word)
  else if error_type_eqb error_type duplication then
    idx <- randint 0 (len word - 1) ;;
    c <- lift (item word idx) ;;
    ret (slice_to idx word ++ [c; c] ++ slice_from (idx + 1) word)
  else if error_type_eqb error_type scramble && (severity =? 3)%Z then
    sample word (length word)
  else ret word.

(** [introduce_error(word, severity)].  [fuel] bounds the depth of the
    recursion: one unit per edit pass. *)
Fixpoint introduce_error (fuel : nat) (word : str) (severity : Z) : M str :=
  if (len word <? 2)%Z then ret word
  else
    match fuel with
    | O => out_of_fuel
    | S fuel' =>
        word <- edit_attempt word severity ;;
        again <- (if (severity =? 3)%Z
                  then u <- random ;; ret (float_lt u float_0_5)
                  else ret false) ;;
        if again then introduce_error fuel' word severity
        else
          again <- (if (severity =? 2)%Z
                    then u <- random ;; ret (float_lt u float_0_2)
                    else ret false) ;;
          if again then introduce_error fuel' word severity
          else ret word
    end.

(** The loop of [add_errors_to_text]: [n] rounds, each picking a position
    of [words] and replacing the word there. *)
Fixpoint modify_words (fuel : nat) (degree : Z) (n : nat)
         (words : list str) : M (list str) :=
  match n with
  | O => ret words
  | S n' =>
      idx <- randint 0 (len words - 1) ;;
      w <- lift (item words idx) ;;
      w' <- introduce_error fuel w degree ;;
      modify_words fuel degree n' (list_set (Z.to_nat idx) w' words)
  end.

(** [add_errors_to_text(text, degree)].  With a [degree] other than 1, 2
    or 3 the name [num_words_to_modify] is read before it is bound. *)
Definition add_errors_to_text (fuel : nat) (text : str) (degree : Z)
  : M str :=
  let words := split text in
  let num_words_to_modify :=
    if (degree =? 1)%Z then Some (Nat.max 1 (length words / 50))
    else if (degree =? 2)%Z then Some (Nat.max 1 (length words / 10))
    else if (degree =? 3)%Z then Some (Nat.max 1 (length words / 5))
    else None in
  match num_words_to_modify with
  | None => raise UnboundLocalError
  | Some n =>
      words <- modify_words fuel degree n words ;;
      ret (join (lit " ") words)
  end.

(** [series.apply(f)] on the [text] column, assigned back to it: [f] runs
    on one row after the other, the other columns stay. *)
Fixpoint apply_text (f : str -> M str) (df : list record)
  : M (list record) :=
  match df with
  | [] => ret []
  | r :: df' =>
      t <- f (text r) ;;
      rest <- apply_text f df' ;;
      ret ({| id := id r; text := t; sentiment := sentiment r |} :: rest)
  end.

(** [inject_spelling_errors(formatted_df, degree)]: the rows of the copy
    it returns. *)
Definition inject_spelling_errors (fuel : nat) (formatted_df : list record)
           (degree : Z) : M (list record) :=
  apply_text (fun x => add_errors_to_text fuel x degree) formatted_df.

End Corruptor.
Import Normalizer Corruptor.

(** ** Vocabulary of the statements *)

(** [g'] is [g] after some draws: same tape, position not before. *)
Definition extends (g g' : rng) : Prop :=
  tape g' = tape g /\ pos g <= pos g'.

(** From position [k] on, no draw of the tape read by [random.random()] is
    below 0.5: no compounding pass is started from there on. *)
Definition calm (t : nat -> N) (k : nat) : Prop :=
  forall i, k <= i -> float_lt (unit_float (t i)) float_0_5 = false.

(** A generator over the tape that starts with [l] and goes on with [d]. *)
Definition rng_of_list (l : list N) (d : N) : rng :=
  mkRng (fun i => nth i l d) 0.

(** The number of positions at which two word lists differ. *)
Fixpoint changed_words (ws ws' : list str) : nat :=
  match ws, ws' with
  | w :: ws1, w' :: ws1' =>
      (if str_eqb w w' then 0 else 1) + changed_words ws1 ws1'
  | _, _ => 0
  end.

Definition has_word (r : record) : Prop := split (text r) <> [].

Definition valid_degree (degree : Z) : Prop :=
  degree = 1%Z \/ degree = 2%Z \/ degree = 3%Z.

(** Two frames agree on everything but the text. *)
Definition same_frame (df df' : list record) : Prop :=
  Forall2 (fun r r' => id r' = id r /\ sentiment r' = sentiment r) df df'.

(** Row by row, the texts split into the same number of words. *)
Definition same_word_counts (df df' : list record) : Prop :=
  Forall2 (fun r r' =>
             length (split (text r')) = length (split (text r))) df df'.

Definition fox : str := lit "the quick brown fox jumps over the lazy dog".

Definition vocabulary : list str :=
  [lit "positive"; lit "negative"; lit "neutral"].

Definition in_vocabulary (v : value) : Prop :=
  exists s, v = VStr s /\ In s vocabulary.

(** A pandas row with the two columns of the movie-review table. *)
Definition movie_row (review sentiment : value) : row :=
  [(lit "review", review); (lit "sentiment", sentiment)].

(** A parsed line of the fashion-review file. *)
Definition fashion_line (review_text overall : value) : option value :=
  Some (VDict [(lit "reviewText", review_text); (lit "overall", overall)]).

(** An [overall] that is no rating: missing (or [null]), or a number other
    than 1, 2, 3, 4 and 5. *)
Definition bad_overall (v : value) : Prop :=
  v = VNone
  \/ exists q, v = VNum q
               /\ ~ (q == 1 \/ q == 2 \/ q == 3 \/ q == 4 \/ q == 5)%Q.

(** Inputs on which the loop bodies do not raise. *)
Definition movie_well_formed (r : row) : Prop :=
  exists review sentiment,
    row_get (lit "review") r = Ok (VStr review)
    /\ row_get (lit "sentiment") r = Ok sentiment.

Definition fashion_well_formed (line : option value) : Prop :=
  exists d, line = Some (VDict d)
            /\ (dict_get (lit "reviewText") d = VNone
                \/ exists s, dict_get (lit "reviewText") d = VStr s).

Definition news_well_formed (r : news_row) : Prop :=
  exists s t, news_sentiment r = VStr s /\ news_text r = VStr t.

(** What each normalizer guarantees of a record [r] it returns. *)
Definition movie_record (df : list row) (r : record) : Prop :=
  exists rw review,
    nth_error df (id r) = Some rw
    /\ row_get (lit "review") rw = Ok (VStr review)
    /\ row_get (lit "sentiment") rw = Ok (sentiment r)
    /\ text r = strip (replace (lit "<br />") (lit " ") review).

Definition fashion_record (lines : list (option value)) (r : record) : Prop :=
  exists d s,
    nth_error lines (id r) = Some (Some (VDict d))
    /\ dict_get (lit "reviewText") d = VStr s
    /\ s <> []
    /\ text r = strip s
    /\ ~ bad_overall (dict_get (lit "overall") d)
    /\ in_vocabulary (sentiment r).

Definition news_record (df : list news_row) (r : record) : Prop :=
  exists s t,
    nth_error df (id r) = Some (mkNews (VStr s) (VStr t))
    /\ text r = strip t
    /\ text r <> []
    /\ sentiment r = VStr (lower (strip s))
    /\ lower (strip s) <> [].

(** The two-row movie-review table of the end-to-end scenario. *)
Definition two_reviews : list row :=
  [movie_row (VStr (lit "Great movie!<br />Loved it")) (VStr (lit "positive"));
   movie_row (VStr (lit "Bad.")) (VStr (lit "negative"))].

(** A fashion-review file of four lines: rated 5, rated 3.5, not rated,
    rated 1. *)
Definition four_lines : list (option value) :=
  [fashion_line (VStr (lit "Great product")) (VNum 5);
   fashion_line (VStr (lit "So so")) (VNum (7 # 2));
   Some (VDict [(lit "reviewText", VStr (lit "No rating"))]);
   fashion_line (VStr (lit "Fell apart")) (VNum 1)].

(** [m] run from [g] returns a value and a generator that satisfy [P]. *)
Definition returns {A : Type} (m : M A) (g : rng)
           (P : A -> rng -> Prop) : Prop :=
  exists a g', m g = Ok (a, g') /\ P a g'.

(** The three ways [m] run from [g] can end: it returns what satisfies [P],
    it raises an exception that satisfies [R], or it runs out of fuel and
    [F] holds. *)
Definition outcome {A : Type} (m : M A) (g : rng)
           (P : A -> rng -> Prop) (R : exn -> Prop) (F : Prop) : Prop :=
  match m g with
  | Ok (a, g') => P a g'
  | Raise e => R e
  | OutOfFuel => F
  end.

(** The fuel cannot outlast the compounding draws of tape [t]: it ends
    before any point from which [t] is calm. *)
Definition fuel_short (t : nat -> N) (fuel : nat) : Prop :=
  forall k, calm t k -> fuel <= k.

Definition no_word (r : record) : Prop := split (text r) = [].

(** A cell that holds a string. *)
Definition is_str (v : value) : Prop := exists s, v = VStr s.

(** The edits of one attempt, as relations between a word and what the
    attempt makes of it. *)
Definition substituted (w w' : str) : Prop :=
  exists a c b x, w = a ++ c :: b /\ w' = a ++ x :: b /\ In x alphabet.

Definition transposed (w w' : str) : Prop :=
  exists a c d b, w = a ++ c :: d :: b /\ w' = a ++ d :: c :: b.

Definition omitted (w w' : str) : Prop :=
  exists a c b, w = a ++ c :: b /\ w' = a ++ b.

Definition duplicated (w w' : str) : Prop :=
  exists a c b, w = a ++ c :: b /\ w' = a ++ c :: c :: b.

(** What an attempt of kind [kind] makes of [w] at [severity]. *)
Definition edited (kind : error_type) (severity : Z) (w w' : str) : Prop :=
  match kind with
  | substitution => substituted w w'
  | transposition => if (2 <? len w)%Z then transposed w w' else w' = w
  | omission => omitted w w'
  | duplication => duplicated w w'
  | scramble => if (severity =? 3)%Z then Permutation w' w else w' = w
  end.

(** Every character of [w'] is a character of [w] or a lowercase letter. *)
Definition letters_added (w w' : str) : Prop :=
  Forall (fun c => In c w \/ In c alphabet) w'.

(** What was a word is a word still. *)
Definition still_word (w w' : str) : Prop := wordlike w -> wordlike w'.

(** The number of rounds of [add_errors_to_text] on [n] words. *)
Definition rounds (degree : Z) (n : nat) : nat :=
  Nat.max 1 (n / (if (degree =? 1)%Z then 50
                  else if (degree =? 2)%Z then 10 else 5)).

(** ** Strings *)

Section Strings.

Lemma split_from_word (w cur rest : str) :
  Forall (fun c => is_space c = false) w ->
  split_from cur (w ++ rest) = split_from (rev w ++ cur) rest.
Proof.
  intros Hw. revert cur.
  induction Hw as [|c w Hc _ IH]; intros cur; simpl.
  - reflexivity.
  - rewrite Hc, IH, <- app_assoc. reflexivity.
Qed.

Lemma split_from_wordlike (s cur : str) :
  Forall (fun c => is_space c = false) cur ->
  Forall wordlike (split_from cur s).
Proof.
  assert (Hrev : forall cur : str,
             cur <> [] -> Forall (fun c => is_space c = false) cur ->
             wordlike (rev cur)).
  { intros cur0 Hne Hall. split.
    - intros E. apply Hne. rewrite <- (rev_involutive cur0), E. reflexivity.
    - apply Forall_rev, Hall. }
  revert cur. induction s as [|c s IH]; intros cur Hcur; simpl.
  - destruct cur as [|a cur']; constructor; [|constructor].
    apply Hrev; [discriminate | exact Hcur].
  - destruct (is_space c) eqn:Hc.
    + destruct cur as [|a cur'].
      * apply IH. constructor.
      * constructor; [apply Hrev; [discriminate | exact Hcur]|].
        apply IH. constructor.
    + apply IH. constructor; assumption.
Qed.

Lemma split_wordlike (s : str) : Forall wordlike (split s).
Proof. apply split_from_wordlike. constructor. Qed.

Lemma split_word (w : str) : wordlike w -> split w = [w].
Proof.
  intros [Hne Hall]. unfold split.
  rewrite <- (app_nil_r w) at 1.
  rewrite split_from_word by exact Hall. simpl. rewrite app_nil_r.
  destruct (rev w) eqn:E.
  - exfalso. apply Hne. rewrite <- (rev_involutive w), E. reflexivity.
  - rewrite <- E, rev_involutive. reflexivity.
Qed.

(** Splitting what [" ".join] made of words gives the words back. *)
Lemma split_join (ws : list str) :
  Forall wordlike ws -> split (join (lit " ") ws) = ws.
Proof.
  induction 1 as [|w ws Hw Hws IH]; [reflexivity|].
  destruct ws as [|w2 ws'].
  - simpl. apply split_word, Hw.
  - change (join (lit " ") (w :: w2 :: ws'))
      with (w ++ lit " " ++ join (lit " ") (w2 :: ws')).
    destruct Hw as [Hne Hall]. unfold split.
    rewrite split_from_word by exact Hall. rewrite app_nil_r.
    change (lit " " ++ join (lit " ") (w2 :: ws'))
      with (32%N :: join (lit " ") (w2 :: ws')).
    cbn [split_from]. change (is_space 32%N) with true. cbv iota.
    destruct (rev w) eqn:E.
    + exfalso. apply Hne. rewrite <- (rev_involutive w), E. reflexivity.
    + rewrite <- E, rev_involutive. f_equal. exact IH.
Qed.

Lemma lstrip_head (s : str) (c : char) (r : str) :
  lstrip s = c :: r -> is_space c = false.
Proof.
  induction s as [|a s IH]; simpl; [discriminate|].
  destruct (is_space a) eqn:Ha; [exact IH|].
  intros E. injection E as <- _. exact Ha.
Qed.



Lemma str_eqb_refl (a : str) : str_eqb a a = true.
Proof. unfold str_eqb. destruct (str_eq_dec a a); congruence. Qed.

End Strings.

(** ** Draws from the generator *)

Section Draws.

Lemma extends_refl (g : rng) : extends g g.
Proof. split; [reflexivity | lia]. Qed.

Lemma extends_trans (g1 g2 g3 : rng) :
  extends g1 g2 -> extends g2 g3 -> extends g1 g3.
Proof. intros [T1 P1] [T2 P2]. split; [congruence | lia]. Qed.

Lemma returns_ret {A : Type} (a : A) (g : rng) (P : A -> rng -> Prop) :
  P a g -> returns (ret a) g P.
Proof. intros H. exists a, g. split; [reflexivity | exact H]. Qed.

Lemma returns_bind {A B : Type} (m : M A) (k : A -> M B) (g : rng)
      (P : A -> rng -> Prop) (Q : B -> rng -> Prop) :
  returns m g P ->
  (forall a g', P a g' -> returns (k a) g' Q) ->
  returns (bind m k) g Q.
Proof.
  intros (a & g' & E & Ha) Hk.
  destruct (Hk a g' Ha) as (b & g'' & E' & Hb).
  exists b, g''. split; [|exact Hb]. unfold bind. rewrite E. exact E'.
Qed.

Lemma returns_weaken {A : Type} (m : M A) (g : rng)
      (P Q : A -> rng -> Prop) :
  returns m g P -> (forall a g', P a g' -> Q a g') -> returns m g Q.
Proof. intros (a & g' & E & Ha) H. exists a, g'. auto. Qed.

Lemma outcome_bind {A B : Type} (m : M A) (k : A -> M B) (g : rng)
      (P : A -> rng -> Prop) (Q : B -> rng -> Prop)
      (R : exn -> Prop) (F : Prop) :
  outcome m g P R F ->
  (forall a g', P a g' -> outcome (k a) g' Q R F) ->
  outcome (bind m k) g Q R F.
Proof.
  unfold outcome, bind. intros Hm Hk.
  destruct (m g) as [[a g']| |]; [|exact Hm|exact Hm].
  apply Hk, Hm.
Qed.

Lemma returns_outcome {A : Type} (m : M A) (g : rng) (P : A -> rng -> Prop)
      (R : exn -> Prop) (F : Prop) :
  returns m g P -> outcome m g P R F.
Proof. intros (a & g' & E & H). unfold outcome. rewrite E. exact H. Qed.

Lemma outcome_weaken {A : Type} (m : M A) (g : rng)
      (P Q : A -> rng -> Prop) (R : exn -> Prop) (F : Prop) :
  outcome m g P R F -> (forall a g', P a g' -> Q a g') -> outcome m g Q R F.
Proof.
  unfold outcome. intros Hm H.
  destruct (m g) as [[a g']| |]; auto.
Qed.

Lemma randbelow_returns (n : nat) (g : rng) :
  0 < n ->
  returns (randbelow n) g (fun k g' => k < n /\ g' = advance g).
Proof.
  intros Hn. unfold randbelow.
  exists (N.to_nat (tape g (pos g) mod N.of_nat n)), (advance g).
  split; [reflexivity|]. split; [|reflexivity].
  assert (tape g (pos g) mod N.of_nat n < N.of_nat n)%N
    by (apply N.mod_lt; lia).
  lia.
Qed.

Lemma randint_returns (a b : Z) (g : rng) :
  (a <= b)%Z ->
  returns (randint a b) g
          (fun v g' => (a <= v <= b)%Z /\ g' = advance g).
Proof.
  intros Hab. unfold randint.
  replace (0 <? b + 1 - a)%Z with true by (symmetry; apply Z.ltb_lt; lia).
  eapply returns_bind.
  - apply randbelow_returns. lia.
  - intros k g' [Hk ->]. apply returns_ret. split; [lia | reflexivity].
Qed.

Lemma randint_empty (a b : Z) (g : rng) :
  (b < a)%Z -> randint a b g = Raise ValueError.
Proof.
  intros Hab. unfold randint.
  replace (0 <? b + 1 - a)%Z with false by (symmetry; apply Z.ltb_ge; lia).
  reflexivity.
Qed.

Lemma choice_returns {A : Type} (seq : list A) (g : rng) :
  seq <> [] ->
  returns (choice seq) g (fun x g' => In x seq /\ g' = advance g).
Proof.
  intros Hne. unfold choice. destruct seq as [|x0 seq']; [congruence|].
  eapply returns_bind.
  - apply randbelow_returns. simpl. lia.
  - intros k g' [Hk ->].
    destruct (nth_error (x0 :: seq') k) as [x|] eqn:E.
    + apply returns_ret. split; [|reflexivity]. eapply nth_error_In, E.
    + apply nth_error_None in E. lia.
Qed.

Lemma item_returns {A : Type} (l : list A) (i : Z) (g : rng) :
  (0 <= i < len l)%Z ->
  returns (lift (item l i)) g
          (fun x g' => nth_error l (Z.to_nat i) = Some x /\ g' = g).
Proof.
  intros Hi. unfold lift, item, len in *.
  replace (i <? 0)%Z with false by (symmetry; apply Z.ltb_ge; lia).
  replace (i <? 0)%Z with false by (symmetry; apply Z.ltb_ge; lia).
  destruct (nth_error l (Z.to_nat i)) as [x|] eqn:E.
  - exists x, g. auto.
  - apply nth_error_None in E. lia.
Qed.

Lemma clip_in_range (n i : Z) : (0 <= i <= n)%Z -> clip n i = Z.to_nat i.
Proof.
  intros Hi. unfold clip.
  replace (i <? 0)%Z with false by (symmetry; apply Z.ltb_ge; lia).
  f_equal. lia.
Qed.

Lemma Forall_slice_to {A : Type} (P : A -> Prop) (i : Z) (l : list A) :
  Forall P l -> Forall P (slice_to i l).
Proof.
  intros H. unfold slice_to. rewrite <- (firstn_skipn (clip (len l) i) l) in H.
  apply Forall_app in H. apply H.
Qed.

Lemma Forall_slice_from {A : Type} (P : A -> Prop) (i : Z) (l : list A) :
  Forall P l -> Forall P (slice_from i l).
Proof.
  intros H. unfold slice_from.
  rewrite <- (firstn_skipn (clip (len l) i) l) in H.
  apply Forall_app in H. apply H.
Qed.

Lemma list_set_length {A : Type} (i : nat) (x : A) (l : list A) :
  length (list_set i x l) = length l.
Proof.
  revert i. induction l as [|y l IH]; intros [|i]; simpl; auto.
Qed.

Lemma Forall_list_set {A : Type} (P : A -> Prop) (i : nat) (x : A)
      (l : list A) :
  P x -> Forall P l -> Forall P (list_set i x l).
Proof.
  intros Hx Hl. revert i.
  induction Hl as [|y l Hy Hl IH]; intros [|i]; simpl; constructor; auto.
Qed.

Lemma nth_error_last {A : Type} (l : list A) (d : A) :
  l <> [] -> nth_error l (length l - 1) = Some (last l d).
Proof.
  induction l as [|a l IH]; [congruence|]. intros _.
  destruct l as [|b l']; [reflexivity|].
  change (last (a :: b :: l') d) with (last (b :: l') d).
  rewrite <- IH by discriminate. simpl. rewrite Nat.sub_0_r. reflexivity.
Qed.

Lemma length_removelast {A : Type} (l : list A) :
  length (removelast l) = length l - 1.
Proof.
  rewrite removelast_firstn_len, length_firstn. lia.
Qed.

(** One round of the selection loop of [sample] takes an element out of the
    pool and keeps the others. *)
Lemma pool_step_perm {A : Type} (pool : list A) (j : nat) (x y : A) :
  nth_error pool j = Some x ->
  nth_error pool (length pool - 1) = Some y ->
  Permutation (x :: removelast (list_set j y pool)) pool.
Proof.
  revert j. induction pool as [|a p IH]; intros j Hx Hy.
  - destruct j; discriminate.
  - destruct p as [|b p'].
    + destruct j as [|j]; simpl in *.
      * injection Hx as <-. apply Permutation_refl.
      * destruct j; discriminate.
    + assert (Hy' : nth_error (b :: p') (length (b :: p') - 1) = Some y).
      { simpl in *. rewrite Nat.sub_0_r in *. exact Hy. }
      destruct j as [|j].
      * injection Hx as ->.
        change (list_set 0 y (x :: b :: p')) with (y :: b :: p').
        change (removelast (y :: b :: p')) with (y :: removelast (b :: p')).
        apply perm_skip.
        rewrite (app_removelast_last y (l := b :: p')) at 2
          by discriminate.
        replace (last (b :: p') y) with y.
        { apply Permutation_cons_append. }
        rewrite (nth_error_last (l := b :: p') y) in Hy' by discriminate.
        congruence.
      * change (nth_error (a :: b :: p') (S j)) with (nth_error (b :: p') j)
          in Hx.
        change (list_set (S j) y (a :: b :: p'))
          with (a :: list_set j y (b :: p')).
        assert (Hne : list_set j y (b :: p') <> []).
        { intros E. apply (f_equal (@length A)) in E.
          rewrite list_set_length in E. discriminate. }
        destruct (list_set j y (b :: p')) as [|c q] eqn:Eq; [congruence|].
        change (removelast (a :: c :: q)) with (a :: removelast (c :: q)).
        rewrite perm_swap. apply perm_skip.
        rewrite <- Eq. apply IH; assumption.
Qed.

Lemma sample_loop_returns {A : Type} (k : nat) (pool : list A) (g : rng) :
  length pool = k ->
  returns (sample_loop k pool) g
          (fun res g' => Permutation res pool /\ tape g' = tape g
                         /\ pos g' = pos g + k).
Proof.
  revert pool g. induction k as [|k IH]; intros pool g Hlen.
  - apply returns_ret. destruct pool; [|discriminate].
    repeat split; [constructor | lia].
  - cbn [sample_loop]. eapply returns_bind.
    + apply randbelow_returns. lia.
    + intros j g1 [Hj ->].
      destruct (nth_error pool j) as [x|] eqn:Ex;
        [|apply nth_error_None in Ex; lia].
      destruct (nth_error pool (length pool - 1)) as [y|] eqn:Ey;
        [|apply nth_error_None in Ey; lia].
      eapply returns_bind.
      * apply IH. rewrite length_removelast, list_set_length. lia.
      * intros rest g2 (Hperm & Ht & Hp). apply returns_ret.
        split; [|split].
        -- eapply Permutation_trans;
             [apply perm_skip, Hperm | apply pool_step_perm; assumption].
        -- rewrite Ht. reflexivity.
        -- rewrite Hp. simpl. lia.
Qed.

End Draws.

(** ** One edit attempt *)

Section EditAttempt.

Local Open Scope rng_scope.

Lemma alphabet_no_space : Forall (fun c => is_space c = false) alphabet.
Proof. repeat constructor. Qed.

Lemma len_ge (w : str) (n : nat) :
  n <= length w -> (Z.of_nat n <= len w)%Z.
Proof. unfold len. lia. Qed.

Lemma length_slices (w : str) (i : Z) :
  (0 <= i <= len w)%Z ->
  length (slice_to i w) = Z.to_nat i /\
  length (slice_from i w) = length w - Z.to_nat i.
Proof.
  intros Hi. unfold slice_to, slice_from. rewrite clip_in_range by exact Hi.
  rewrite length_firstn, length_skipn. unfold len in Hi. lia.
Qed.

(** What every edit attempt on a word of two or more characters does: it
    returns, it has drawn at least once, the word is still not empty, and no
    whitespace has come into it. *)
Lemma edit_attempt_returns (w : str) (severity : Z) (g : rng) :
  2 <= length w ->
  returns (edit_attempt w severity) g
          (fun w' g' =>
             tape g' = tape g /\ pos g < pos g' /\ w' <> []
             /\ (Forall (fun c => is_space c = false) w ->
                 Forall (fun c => is_space c = false) w')).
Proof.
  intros Hlen. pose proof (len_ge w Hlen) as HlenZ. unfold edit_attempt.
  eapply returns_bind; [apply choice_returns; discriminate|].
  intros et g1 [_ ->].
  destruct et; cbn [error_type_eqb andb].
  - (* substitution *)
    eapply returns_bind; [apply randint_returns; lia|].
    intros idx g2 [Hidx ->].
    eapply returns_bind; [apply choice_returns; discriminate|].
    intros c g3 [Hc ->]. apply returns_ret.
    split; [reflexivity|]. split; [simpl; lia|]. split.
    + intros E. apply app_eq_nil in E. destruct E as [_ E]. discriminate.
    + intros Hw. apply Forall_app. split; [apply Forall_slice_to, Hw|].
      apply Forall_app. split; [|apply Forall_slice_from, Hw].
      constructor; [|constructor].
      exact (proj1 (Forall_forall _ _) alphabet_no_space c Hc).
  - (* transposition *)
    destruct (2 <? len w)%Z eqn:H2.
    + apply Z.ltb_lt in H2.
      eapply returns_bind; [apply randint_returns; lia|].
      intros idx g2 [Hidx ->].
      eapply returns_bind; [apply item_returns; lia|].
      intros a g3 [Ha ->].
      eapply returns_bind; [apply item_returns; lia|].
      intros b g4 [Hb ->]. apply returns_ret.
      split; [reflexivity|]. split; [simpl; lia|]. split.
      * intros E. apply app_eq_nil in E. destruct E as [_ E]. discriminate.
      * intros Hw. pose proof (proj1 (Forall_forall _ _) Hw) as Hin.
        apply Forall_app. split; [apply Forall_slice_to, Hw|].
        constructor; [eapply Hin, nth_error_In, Ha|].
        constructor; [eapply Hin, nth_error_In, Hb|].
        apply Forall_slice_from, Hw.
    + apply returns_ret.
      split; [reflexivity|]. split; [simpl; lia|]. split; [|auto].
      intros ->. simpl in Hlen. lia.
  - (* omission *)
    eapply returns_bind; [apply randint_returns; lia|].
    intros idx g2 [Hidx ->]. apply returns_ret.
    split; [reflexivity|]. split; [simpl; lia|]. split.
    + intros E. apply (f_equal (@length char)) in E.
      rewrite length_app in E.
      destruct (length_slices w (i := idx)) as [E1 _]; [lia|].
      destruct (length_slices w (i := idx + 1)) as [_ E2]; [lia|].
      rewrite E1, E2 in E. simpl in E. unfold len in *. lia.
    + intros Hw. apply Forall_app.
      split; [apply Forall_slice_to, Hw | apply Forall_slice_from, Hw].
  - (* duplication *)
    eapply returns_bind; [apply randint_returns; lia|].
    intros idx g2 [Hidx ->].
    eapply returns_bind; [apply item_returns; lia|].
    intros c g3 [Hc ->]. apply returns_ret.
    split; [reflexivity|]. split; [simpl; lia|]. split.
    + intros E. apply app_eq_nil in E. destruct E as [_ E]. discriminate.
    + intros Hw. pose proof (proj1 (Forall_forall _ _) Hw) as Hin.
      apply Forall_app. split; [apply Forall_slice_to, Hw|].
      constructor; [eapply Hin, nth_error_In, Hc|].
      constructor; [eapply Hin, nth_error_In, Hc|].
      apply Forall_slice_from, Hw.
  - (* scramble *)
    destruct (severity =? 3)%Z.
    + unfold sample. rewrite Nat.leb_refl.
      eapply returns_weaken; [apply sample_loop_returns; reflexivity|].
      intros w' g' (Hperm & Ht & Hp).
      split; [exact Ht|]. split; [simpl in Hp; lia|]. split.
      * intros ->. apply Permutation_nil in Hperm. subst w.
        simpl in Hlen. lia.
      * intros Hw. eapply Permutation_Forall; [|exact Hw].
        apply Permutation_sym, Hperm.
    + apply returns_ret.
      split; [reflexivity|]. split; [simpl; lia|]. split; [|auto].
      intros ->. simpl in Hlen. lia.
Qed.

End EditAttempt.

(** ** The compounding draws *)

Section Floats.

Lemma float_lt_half (k : N) :
  float_lt (unit_float k) float_0_5 = true <-> (unit_float k < 1 # 2)%Q.
Proof.
  unfold float_lt, float_0_5. rewrite negb_true_iff.
  split.
  - intros H. apply Qnot_le_lt. intros Hle.
    apply Qle_bool_iff in Hle. congruence.
  - intros H. destruct (Qle_bool (1 # 2) (unit_float k)) eqn:E; [|reflexivity].
    apply Qle_bool_iff in E. exfalso. exact (Qlt_not_le _ _ H E).
Qed.

(** On the grid of [random.random()], being below the float the literal
    [0.2] denotes is being below one fifth. *)
Lemma float_lt_fifth (k : N) :
  float_lt (unit_float k) float_0_2 = true <-> (unit_float k < 1 # 5)%Q.
Proof.
  unfold float_lt, float_0_2, Qle_bool, Qlt, unit_float.
  cbn [Qnum Qden]. rewrite negb_true_iff, Z.leb_gt.
  assert (k mod 9007199254740992 < 9007199254740992)%N
    by (apply N.mod_lt; discriminate).
  lia.
Qed.

Lemma float_lt_fifth_half (k : N) :
  float_lt (unit_float k) float_0_2 = true ->
  float_lt (unit_float k) float_0_5 = true.
Proof.
  rewrite float_lt_fifth, float_lt_half. intros H.
  eapply Qlt_trans; [exact H | reflexivity].
Qed.

Lemma calm_draw (t : nat -> N) (k i : nat) :
  calm t k -> float_lt (unit_float (t i)) float_0_5 = true -> i < k.
Proof.
  intros Hcalm Hlt. destruct (Nat.lt_ge_cases i k) as [H|H]; [exact H|].
  rewrite (Hcalm i H) in Hlt. discriminate.
Qed.

End Floats.

(** ** introduce_error *)

Section IntroduceError.

Lemma introduce_error_short (fuel : nat) (w : str) (severity : Z) (g : rng) :
  length w < 2 -> introduce_error fuel w severity g = Ok (w, g).
Proof.
  intros H. destruct fuel; cbn [introduce_error];
    (replace (len w <? 2)%Z with true
      by (symmetry; apply Z.ltb_lt; unfold len; lia)); reflexivity.
Qed.

(** One pass of [introduce_error] on a word the length test lets through:
    the edit attempt, then the compounding draw the severity asks for. *)
Lemma introduce_error_step (fuel : nat) (w : str) (severity : Z) (g : rng)
      (w1 : str) (g1 : rng) :
  2 <= length w ->
  edit_attempt w severity g = Ok (w1, g1) ->
  introduce_error (S fuel) w severity g =
  let u := unit_float (tape g1 (pos g1)) in
  if (severity =? 3)%Z then
    if float_lt u float_0_5
    then introduce_error fuel w1 severity (advance g1)
    else Ok (w1, advance g1)
  else if (severity =? 2)%Z then
    if float_lt u float_0_2
    then introduce_error fuel w1 severity (advance g1)
    else Ok (w1, advance g1)
  else Ok (w1, g1).
Proof.
  intros Hlen E. cbn [introduce_error].
  replace (len w <? 2)%Z with false
    by (symmetry; apply Z.ltb_ge; unfold len; lia).
  unfold bind at 1. rewrite E. cbv zeta.
  destruct (severity =? 3)%Z eqn:E3.
  - assert (E2 : (severity =? 2)%Z = false)
      by (apply Z.eqb_eq in E3; subst; reflexivity).
    rewrite E2. cbv [bind random draw ret].
    destruct (float_lt (unit_float (tape g1 (pos g1))) float_0_5);
      reflexivity.
  - unfold bind at 1. unfold ret at 1.
    destruct (severity =? 2)%Z.
    + cbv [bind random draw ret].
      destruct (float_lt (unit_float (tape g1 (pos g1))) float_0_2);
        reflexivity.
    + reflexivity.
Qed.

(** Whatever the tape and the fuel: [introduce_error] never raises, a word
    stays a word, and it runs out of fuel only if compounding draws keep
    succeeding for as long as the fuel lasts. *)
Lemma introduce_error_spec (fuel : nat) :
  forall (w : str) (severity : Z) (g : rng),
    match introduce_error fuel w severity g with
    | Ok (w', g') => extends g g' /\ (wordlike w -> wordlike w')
    | Raise _ => False
    | OutOfFuel =>
        fuel = 0 \/ forall k, calm (tape g) k -> pos g + fuel <= k
    end.
Proof.
  induction fuel as [|fuel IH]; intros w severity g.
  - destruct (Nat.lt_ge_cases (length w) 2) as [Hs|Hl].
    + rewrite introduce_error_short by exact Hs.
      split; [apply extends_refl | auto].
    + cbn [introduce_error].
      replace (len w <? 2)%Z with false
        by (symmetry; apply Z.ltb_ge; unfold len; lia).
      left. reflexivity.
  - destruct (Nat.lt_ge_cases (length w) 2) as [Hs|Hl].
    + rewrite introduce_error_short by exact Hs.
      split; [apply extends_refl | auto].
    + destruct (@edit_attempt_returns w severity g Hl)
        as (w1 & g1 & E & Ht & Hp & Hne & Hsp).
      rewrite (@introduce_error_step fuel w severity g w1 g1 Hl E). cbv zeta.
      assert (Hw1 : wordlike w -> wordlike w1)
        by (intros [_ Hall]; split; auto).
      assert (Hstop : extends g (advance g1) /\ (wordlike w -> wordlike w1)).
      { split; [|exact Hw1]. split; [exact Ht | simpl; lia]. }
      assert (Hgo : float_lt (unit_float (tape g1 (pos g1))) float_0_5 = true ->
                    match introduce_error fuel w1 severity (advance g1) with
                    | Ok (w', g') => extends g g' /\ (wordlike w -> wordlike w')
                    | Raise _ => False
                    | OutOfFuel =>
                        S fuel = 0 \/
                        forall k, calm (tape g) k -> pos g + S fuel <= k
                    end).
      { intros Hu. specialize (IH w1 severity (advance g1)).
        destruct (introduce_error fuel w1 severity (advance g1))
          as [[w' g']| |]; [| exact IH |].
        - destruct IH as [Hext Hw']. split; [|auto].
          eapply extends_trans; [|exact Hext].
          split; [exact Ht | simpl; lia].
        - right. intros k Hcalm.
          assert (pos g1 < k)
            by (eapply calm_draw; [exact Hcalm | rewrite <- Ht; exact Hu]).
          destruct IH as [-> | IH]; [lia|].
          specialize (IH k). simpl in IH. rewrite Ht in IH.
          specialize (IH Hcalm). lia. }
      destruct (severity =? 3)%Z.
      * destruct (float_lt (unit_float (tape g1 (pos g1))) float_0_5) eqn:Hu;
          [apply Hgo; reflexivity | exact Hstop].
      * destruct (severity =? 2)%Z.
        -- destruct (float_lt (unit_float (tape g1 (pos g1))) float_0_2)
             eqn:Hu; [|exact Hstop].
           apply Hgo, float_lt_fifth_half, Hu.
        -- split; [|exact Hw1]. split; [exact Ht | lia].
Qed.

(** With a calm tape and fuel beyond the calm point, it returns. *)
Lemma introduce_error_returns (fuel k : nat) (w : str) (severity : Z)
      (g : rng) :
  calm (tape g) k -> k < fuel ->
  returns (introduce_error fuel w severity) g
          (fun w' g' => extends g g' /\ (wordlike w -> wordlike w')).
Proof.
  intros Hcalm Hk. pose proof (introduce_error_spec fuel w severity g) as H.
  destruct (introduce_error fuel w severity g) as [[w' g']| |] eqn:E.
  - exists w', g'. auto.
  - contradiction.
  - destruct H as [-> | H]; [lia|]. specialize (H k Hcalm). lia.
Qed.

Lemma introduce_error_light (fuel : nat) (w : str) (g : rng) :
  returns (introduce_error (S fuel) w 1) g
          (fun w' _ => wordlike w -> wordlike w').
Proof.
  destruct (Nat.lt_ge_cases (length w) 2) as [Hs|Hl].
  - exists w, g. split; [apply introduce_error_short, Hs | auto].
  - destruct (@edit_attempt_returns w 1%Z g Hl)
      as (w1 & g1 & E & _ & _ & Hne & Hsp).
    exists w1, g1. split.
    + rewrite (@introduce_error_step fuel w 1%Z g w1 g1 Hl E). reflexivity.
    + intros [_ Hall]. split; auto.
Qed.

End IntroduceError.

(** ** add_errors_to_text and inject_spelling_errors *)

Lemma add_errors_to_text_unbound (fuel : nat) (degree : Z) (txt : str)
      (g : rng) :
  ~ valid_degree degree ->
  add_errors_to_text fuel txt degree g = Raise UnboundLocalError.
Proof.
  intros Hdeg. unfold valid_degree in Hdeg. unfold add_errors_to_text.
  destruct (degree =? 1)%Z eqn:E1; [apply Z.eqb_eq in E1; tauto|].
  destruct (degree =? 2)%Z eqn:E2; [apply Z.eqb_eq in E2; tauto|].
  destruct (degree =? 3)%Z eqn:E3; [apply Z.eqb_eq in E3; tauto|].
  reflexivity.
Qed.

(** The frame of [apply]: whatever the function, as many rows come back,
    each with the id and the sentiment it had. *)
Lemma apply_text_frame (f : str -> M str) (df : list record) :
  forall (g : rng) (df' : list record) (g' : rng),
    apply_text f df g = Ok (df', g') -> same_frame df df'.
Proof.
  induction df as [|r df IH]; intros g df' g' E.
  - injection E as <- _. constructor.
  - cbn [apply_text] in E. unfold bind in E.
    destruct (f (text r) g) as [[t1 g1]| |]; try discriminate.
    destruct (apply_text f df g1) as [[rest g2]| |] eqn:Er; try discriminate.
    injection E as <- _. constructor; [split; reflexivity|].
    eapply IH, Er.
Qed.

Section AddErrors.

Variable fuel : nat.
Variable degree : Z.
Variable t : nat -> N.

(** What running out of fuel entails, and the fact about [introduce_error]
    the rest of the section stands on. *)
Variable F : Prop.

Hypothesis introduce_error_outcome :
  forall (w : str) (g : rng),
    tape g = t ->
    outcome (introduce_error fuel w degree) g
            (fun w' g' => tape g' = t /\ pos g <= pos g'
                          /\ (wordlike w -> wordlike w'))
            (fun _ => False) F.

Lemma modify_words_outcome (n : nat) :
  forall (words : list str) (g : rng),
    tape g = t -> words <> [] -> Forall wordlike words ->
    outcome (modify_words fuel degree n words) g
            (fun ws' g' => tape g' = t /\ pos g <= pos g'
                           /\ Forall wordlike ws'
                           /\ length ws' = length words)
            (fun _ => False) F.
Proof.
  induction n as [|n IH]; intros words g Ht Hne Hall.
  - cbn [modify_words]. unfold outcome, ret. repeat split; auto.
  - cbn [modify_words].
    assert (Hlen : (1 <= len words)%Z)
      by (unfold len; destruct words; [congruence | simpl; lia]).
    eapply outcome_bind.
    { apply returns_outcome, randint_returns. lia. }
    intros idx g1 [Hidx ->].
    eapply outcome_bind.
    { apply returns_outcome, item_returns. lia. }
    intros w g2 [Hw ->].
    eapply outcome_bind.
    { apply introduce_error_outcome. exact Ht. }
    intros w' g3 (Ht3 & Hp3 & Hw').
    assert (Hset : Forall wordlike (list_set (Z.to_nat idx) w' words)).
    { apply Forall_list_set; [|exact Hall]. apply Hw'.
      exact (proj1 (Forall_forall _ _) Hall w (nth_error_In _ _ Hw)). }
    eapply outcome_weaken.
    { apply IH; [exact Ht3 | | exact Hset].
      intros E. apply (f_equal (@length str)) in E.
      rewrite list_set_length in E. destruct words; [congruence|discriminate]. }
    intros ws' g4 (Ht4 & Hp4 & Hall4 & Hlen4).
    rewrite list_set_length in Hlen4. simpl in Hp3. repeat split; auto. lia.
Qed.

Lemma modify_words_empty (n : nat) (g : rng) :
  modify_words fuel degree (S n) [] g = Raise ValueError.
Proof.
  cbn [modify_words]. unfold bind at 1.
  rewrite randint_empty by (unfold len; simpl; lia). reflexivity.
Qed.

(** [add_errors_to_text] at a degree of 1, 2 or 3: it returns for a text
    with words, and the result has as many; it raises [ValueError] for a
    text without. *)
Lemma add_errors_to_text_outcome (txt : str) (g : rng) :
  valid_degree degree -> tape g = t ->
  outcome (add_errors_to_text fuel txt degree) g
          (fun t' g' => split txt <> [] /\ tape g' = t /\ pos g <= pos g'
                        /\ length (split t') = length (split txt))
          (fun e => e = ValueError /\ split txt = [])
          F.
Proof.
  intros Hdeg Ht. unfold add_errors_to_text.
  assert (Hn : exists n,
             (if (degree =? 1)%Z
              then Some (Nat.max 1 (length (split txt) / 50))
              else if (degree =? 2)%Z
                   then Some (Nat.max 1 (length (split txt) / 10))
                   else if (degree =? 3)%Z
                        then Some (Nat.max 1 (length (split txt) / 5))
                        else None) = Some (S n)).
  { destruct Hdeg as [-> | [-> | ->]]; cbn [Z.eqb Pos.eqb];
      match goal with
      | |- exists _, Some (Nat.max 1 ?m) = _ =>
          exists (Nat.max 1 m - 1); f_equal; lia
      end. }
  destruct Hn as [n ->].
  destruct (split txt) as [|w0 ws0] eqn:Es.
  - unfold outcome, bind. rewrite modify_words_empty. auto.
  - eapply outcome_bind with
      (P := fun ws' g' => tape g' = t /\ pos g <= pos g'
                          /\ Forall wordlike ws'
                          /\ length ws' = length (w0 :: ws0)).
    + pose proof (@modify_words_outcome (S n) (w0 :: ws0) g Ht) as H.
      unfold outcome in *.
      destruct (modify_words fuel degree (S n) (w0 :: ws0) g)
        as [[ws' g']| |].
      * apply H; [discriminate|]. rewrite <- Es. apply split_wordlike.
      * exfalso. apply H; [discriminate|]. rewrite <- Es.
        apply split_wordlike.
      * apply H; [discriminate|]. rewrite <- Es. apply split_wordlike.
    + intros ws' g' (Ht' & Hp' & Hall & Hlen). unfold outcome, ret.
      rewrite split_join by exact Hall.
      repeat split; auto. discriminate.
Qed.

(** [inject_spelling_errors] at a degree of 1, 2 or 3. *)
Lemma inject_outcome (df : list record) :
  valid_degree degree ->
  forall g : rng,
    tape g = t ->
    outcome (inject_spelling_errors fuel df degree) g
            (fun df' g' => Forall has_word df /\ tape g' = t
                           /\ pos g <= pos g' /\ same_word_counts df df')
            (fun e => e = ValueError /\ Exists no_word df)
            F.
Proof.
  intros Hdeg. unfold inject_spelling_errors.
  induction df as [|r df IH]; intros g Ht.
  - unfold outcome. cbn. repeat split; auto; constructor.
  - cbn [apply_text].
    eapply outcome_bind with
      (P := fun t' g' => has_word r /\ tape g' = t /\ pos g <= pos g'
                         /\ length (split t') = length (split (text r))).
    { pose proof (@add_errors_to_text_outcome (text r) g Hdeg Ht) as H.
      unfold outcome in *.
      destruct (add_errors_to_text fuel (text r) degree g) as [[t' g']| |].
      - exact H.
      - destruct H as [-> H]. split; [reflexivity|]. left. exact H.
      - exact H. }
    intros t' g1 (Hr & Ht1 & Hp1 & Hlen).
    eapply outcome_bind with
      (P := fun rest g' => Forall has_word df /\ tape g' = t
                           /\ pos g1 <= pos g'
                           /\ same_word_counts df rest).
    { specialize (IH g1 Ht1). unfold outcome in *.
      destruct (apply_text (fun x => add_errors_to_text fuel x degree) df g1)
        as [[rest g2]| |].
      - exact IH.
      - destruct IH as [-> H]. split; [reflexivity|]. right. exact H.
      - exact IH. }
    intros rest g2 (Hdf & Ht2 & Hp2 & Hcnt). unfold outcome, ret.
    repeat split; auto; [lia|]. constructor; assumption.
Qed.

End AddErrors.

(** The two cases in which the section applies: any degree, where the fuel
    can only run out before the tape is calm; and degree 1, where one unit
    of fuel is enough on every tape. *)
Lemma introduce_error_outcome_calm (fuel : nat) (degree : Z) (w : str)
      (g : rng) :
  outcome (introduce_error fuel w degree) g
          (fun w' g' => tape g' = tape g /\ pos g <= pos g'
                        /\ (wordlike w -> wordlike w'))
          (fun _ => False) (fuel_short (tape g) fuel).
Proof.
  unfold outcome.
  pose proof (introduce_error_spec fuel w degree g) as H.
  destruct (introduce_error fuel w degree g) as [[w' g']| |].
  - destruct H as [[T P] Hw]. auto.
  - exact H.
  - intros k Hk. destruct H as [-> | H]; [lia|].
    specialize (H k Hk). lia.
Qed.

Lemma introduce_error_outcome_light (fuel : nat) (w : str) (g : rng) :
  outcome (introduce_error (S fuel) w 1) g
          (fun w' g' => tape g' = tape g /\ pos g <= pos g'
                        /\ (wordlike w -> wordlike w'))
          (fun _ => False) False.
Proof.
  unfold outcome.
  pose proof (introduce_error_spec (S fuel) w 1 g) as H.
  destruct (introduce_error_light fuel w g) as (w' & g' & E & _).
  rewrite E in *. destruct H as [[T P] Hw]. auto.
Qed.

Lemma inject_outcome_calm (fuel : nat) (degree : Z) (df : list record)
      (g : rng) :
  valid_degree degree ->
  outcome (inject_spelling_errors fuel df degree) g
          (fun df' g' => Forall has_word df /\ tape g' = tape g
                         /\ pos g <= pos g' /\ same_word_counts df df')
          (fun e => e = ValueError /\ Exists no_word df)
          (fuel_short (tape g) fuel).
Proof.
  intros Hdeg.
  apply (@inject_outcome fuel degree (tape g) (fuel_short (tape g) fuel));
    [|exact Hdeg|reflexivity].
  intros w g0 <-. apply introduce_error_outcome_calm.
Qed.

Lemma inject_outcome_light (fuel : nat) (df : list record) (g : rng) :
  outcome (inject_spelling_errors (S fuel) df 1) g
          (fun df' g' => Forall has_word df /\ tape g' = tape g
                         /\ pos g <= pos g' /\ same_word_counts df df')
          (fun e => e = ValueError /\ Exists no_word df)
          False.
Proof.
  apply (@inject_outcome (S fuel) 1%Z (tape g) False);
    [|left; reflexivity|reflexivity].
  intros w g0 <-. apply introduce_error_outcome_light.
Qed.

(** ** The per-word edit policy *)

Section EditPolicy.

(** C3.  For every severity, [introduce_error] returns a word of fewer than
    two characters (one character, or none) exactly as it was, and draws
    nothing from the generator. *)
Theorem introduce_error_short_word_unchanged
        (fuel : nat) (w : str) (severity : Z) (g : rng) :
  length w < 2 -> introduce_error fuel w severity g = Ok (w, g).
Proof. apply introduce_error_short. Qed.

Lemma introduce_error_short_word_unchanged_witness :
  introduce_error 0 (lit "a") 3 (rng_of_list [] 0%N)
  = Ok (lit "a", rng_of_list [] 0%N).
Proof.
  apply (@introduce_error_short_word_unchanged
           0 (lit "a") 3%Z (rng_of_list [] 0%N)).
  simpl. lia.
Defined.

Lemma edit_attempt_scramble (w : str) (severity : Z) (g g1 : rng) :
  choice error_types g = Ok (scramble, g1) ->
  edit_attempt w severity g =
  if (severity =? 3)%Z then sample w (length w) g1 else Ok (w, g1).
Proof.
  intros E. unfold edit_attempt. unfold bind at 1. rewrite E.
  cbn [error_type_eqb andb]. destruct (severity =? 3)%Z; reflexivity.
Qed.

(** C4.  When the edit kind drawn is scramble: at severity 3 the word is
    replaced by a sample of all its characters, a permutation of it; at any
    other severity the attempt returns the word as it was, with the
    generator right after the draw of the kind (no other kind is drawn in
    its place), so that at severity 1 the whole call is a no-op. *)
Theorem scramble_only_when_severe
        (w : str) (severity : Z) (g g1 : rng) :
  2 <= length w ->
  choice error_types g = Ok (scramble, g1) ->
  (severity <> 3%Z -> edit_attempt w severity g = Ok (w, g1))
  /\ (severity = 3%Z ->
      edit_attempt w severity g = sample w (length w) g1
      /\ exists w' g', edit_attempt w severity g = Ok (w', g')
                       /\ Permutation w' w
                       /\ pos g' = pos g1 + length w)
  /\ (severity = 1%Z ->
      forall fuel, introduce_error (S fuel) w severity g = Ok (w, g1)).
Proof.
  intros Hlen E. pose proof (@edit_attempt_scramble w severity g g1 E) as Hs.
  split; [|split].
  - intros Hsev. rewrite Hs.
    destruct (severity =? 3)%Z eqn:E3; [|reflexivity].
    apply Z.eqb_eq in E3. contradiction.
  - intros ->. rewrite Hs. cbn [Z.eqb Pos.eqb]. split; [reflexivity|].
    unfold sample. rewrite Nat.leb_refl.
    destruct (@sample_loop_returns char (length w) w g1 eq_refl)
      as (w' & g' & E' & Hperm & _ & Hpos).
    exists w', g'. auto.
  - intros -> fuel.
    rewrite (@introduce_error_step fuel w 1%Z g w g1 Hlen); [reflexivity|].
    rewrite Hs. reflexivity.
Qed.

Lemma scramble_only_when_severe_witness :
  edit_attempt (lit "word") 2 (rng_of_list [4%N] 0%N)
  = Ok (lit "word", advance (rng_of_list [4%N] 0%N)).
Proof.
  apply (@scramble_only_when_severe
           (lit "word") 2%Z (rng_of_list [4%N] 0%N)
           (advance (rng_of_list [4%N] 0%N))).
  - simpl. lia.
  - reflexivity.
  - discriminate.
Defined.

Lemma unit_float_range (k : N) : (0 <= unit_float k)%Q /\ (unit_float k < 1)%Q.
Proof.
  unfold unit_float, Qle, Qlt. cbn [Qnum Qden].
  assert (k mod 9007199254740992 < 9007199254740992)%N
    by (apply N.mod_lt; discriminate).
  generalize dependent (k mod 9007199254740992)%N. intros m Hm. lia.
Qed.

(** C5.  After the edit attempt on a word of two or more characters, the
    draw [u] of [random.random()] that follows it decides the compounding:
    at severity 3 another pass runs on the edited word exactly when
    [u < 1/2], at severity 2 exactly when [u < 1/5], and at severity 1
    nothing is drawn and the edited word is returned. *)
Theorem compounding_policy (fuel : nat) (w : str) (severity : Z) (g : rng) :
  2 <= length w ->
  exists (w1 : str) (g1 : rng),
    edit_attempt w severity g = Ok (w1, g1)
    /\ random g1 = Ok (unit_float (tape g1 (pos g1)), advance g1)
    /\ (0 <= unit_float (tape g1 (pos g1)))%Q
    /\ (unit_float (tape g1 (pos g1)) < 1)%Q
    /\ (severity = 3%Z ->
        ((unit_float (tape g1 (pos g1)) < 1 # 2)%Q ->
         introduce_error (S fuel) w severity g
         = introduce_error fuel w1 severity (advance g1))
        /\ (~ (unit_float (tape g1 (pos g1)) < 1 # 2)%Q ->
            introduce_error (S fuel) w severity g = Ok (w1, advance g1)))
    /\ (severity = 2%Z ->
        ((unit_float (tape g1 (pos g1)) < 1 # 5)%Q ->
         introduce_error (S fuel) w severity g
         = introduce_error fuel w1 severity (advance g1))
        /\ (~ (unit_float (tape g1 (pos g1)) < 1 # 5)%Q ->
            introduce_error (S fuel) w severity g = Ok (w1, advance g1)))
    /\ (severity = 1%Z ->
        introduce_error (S fuel) w severity g = Ok (w1, g1)).
Proof.
  intros Hlen.
  destruct (@edit_attempt_returns w severity g Hlen) as (w1 & g1 & E & _).
  exists w1, g1. pose proof (@introduce_error_step fuel w severity g w1 g1
                               Hlen E) as Hstep.
  cbv zeta in Hstep.
  destruct (unit_float_range (tape g1 (pos g1))) as [H0 H1].
  split; [exact E|]. split; [reflexivity|].
  split; [exact H0|]. split; [exact H1|].
  split; [|split].
  - intros ->. cbn [Z.eqb Pos.eqb] in Hstep.
    pose proof (float_lt_half (tape g1 (pos g1))) as Hiff.
    destruct (float_lt (unit_float (tape g1 (pos g1))) float_0_5).
    + split; [intros _; exact Hstep|].
      intros Hn. exfalso. apply Hn, Hiff. reflexivity.
    + split; [|intros _; exact Hstep].
      intros Hlt. apply Hiff in Hlt. discriminate.
  - intros ->. cbn [Z.eqb Pos.eqb] in Hstep.
    pose proof (float_lt_fifth (tape g1 (pos g1))) as Hiff.
    destruct (float_lt (unit_float (tape g1 (pos g1))) float_0_2).
    + split; [intros _; exact Hstep|].
      intros Hn. exfalso. apply Hn, Hiff. reflexivity.
    + split; [|intros _; exact Hstep].
      intros Hlt. apply Hiff in Hlt. discriminate.
  - intros ->. exact Hstep.
Qed.

Lemma compounding_policy_witness :
  exists (w1 : str) (g1 : rng),
    edit_attempt (lit "word") 2 (rng_of_list [2%N; 1%N; 7%N] 0%N)
    = Ok (w1, g1)
    /\ ((unit_float (tape g1 (pos g1)) < 1 # 5)%Q ->
        introduce_error 1 (lit "word") 2 (rng_of_list [2%N; 1%N; 7%N] 0%N)
        = introduce_error 0 w1 2 (advance g1)).
Proof.
  destruct (@compounding_policy 0 (lit "word") 2%Z
              (rng_of_list [2%N; 1%N; 7%N] 0%N)) as (w1 & g1 & E & H).
  - simpl. lia.
  - exists w1, g1. split; [exact E|].
    destruct H as (_ & _ & _ & _ & H2 & _). apply H2. reflexivity.
Defined.

End EditPolicy.

(** ** Light severity *)

Section Light.

Lemma changed_words_same (ws : list str) : changed_words ws ws = 0.
Proof.
  induction ws as [|w ws IH]; [reflexivity|].
  simpl. rewrite str_eqb_refl. exact IH.
Qed.

Lemma changed_words_set (ws : list str) (i : nat) (w' : str) :
  changed_words ws (list_set i w' ws) <= 1.
Proof.
  revert i. induction ws as [|w ws IH]; intros i; [simpl; lia|].
  destruct i as [|i]; simpl.
  - rewrite changed_words_same. destruct (str_eqb w w'); lia.
  - rewrite str_eqb_refl. apply IH.
Qed.

Lemma randint_value (a b : Z) (g : rng) :
  (a <= b)%Z ->
  randint a b g
  = Ok ((a + Z.of_nat
              (N.to_nat (tape g (pos g) mod N.of_nat (Z.to_nat (b + 1 - a)))))%Z,
        advance g).
Proof.
  intros Hab. unfold randint.
  replace (0 <? b + 1 - a)%Z with true by (symmetry; apply Z.ltb_lt; lia).
  reflexivity.
Qed.

(** At degree 1 a text of fewer than 100 words gets one round: the first
    draw of the tape picks a position, and the word there is replaced by
    what [introduce_error] makes of it. *)
Lemma add_errors_to_text_light (fuel : nat) (txt : str) (g : rng) :
  split txt <> [] -> length (split txt) < 100 ->
  exists (i : nat) (w w' : str) (g' : rng),
    i = N.to_nat (tape g (pos g) mod N.of_nat (length (split txt)))
    /\ nth_error (split txt) i = Some w
    /\ introduce_error (S fuel) w 1 (advance g) = Ok (w', g')
    /\ wordlike w'
    /\ add_errors_to_text (S fuel) txt 1 g
       = Ok (join (lit " ") (list_set i w' (split txt)), g').
Proof.
  intros Hne Hlt.
  pose proof (split_wordlike txt) as Hall.
  set (ws := split txt) in *.
  set (i := N.to_nat (tape g (pos g) mod N.of_nat (length ws))).
  assert (Hlen : 0 < length ws) by (destruct ws; [congruence | simpl; lia]).
  assert (Hi : i < length ws).
  { assert (tape g (pos g) mod N.of_nat (length ws) < N.of_nat (length ws))%N
      by (apply N.mod_lt; lia).
    unfold i. lia. }
  destruct (nth_error ws i) as [w|] eqn:Ew;
    [|apply nth_error_None in Ew; lia].
  destruct (introduce_error_light fuel w (advance g)) as (w' & g' & E & Hw').
  exists i, w, w', g'. split; [reflexivity|]. split; [exact Ew|].
  split; [exact E|]. split.
  { apply Hw'. exact (proj1 (Forall_forall _ _) Hall w (nth_error_In _ _ Ew)). }
  unfold add_errors_to_text. fold ws. cbn [Z.eqb Pos.eqb].
  replace (Nat.max 1 (length ws / 50)) with 1
    by (assert (length ws / 50 < 2)
         by (apply Nat.Div0.div_lt_upper_bound; lia); lia).
  cbn [modify_words]. unfold bind at 1 2.
  rewrite randint_value by (unfold len; lia).
  replace (Z.to_nat (len ws - 1 + 1 - 0)) with (length ws)
    by (unfold len; lia).
  fold i. rewrite Z.add_0_l. unfold bind at 1.
  unfold lift, item.
  replace (Z.of_nat i <? 0)%Z with false by (symmetry; apply Z.ltb_ge; lia).
  replace (Z.of_nat i <? 0)%Z with false by (symmetry; apply Z.ltb_ge; lia).
  rewrite Nat2Z.id, Ew. unfold bind at 1. rewrite E.
  reflexivity.
Qed.

(** C6, as the code has it.  On the nine words of the fox sentence at degree
    1, whatever the tape: the target count is 1; the first draw picks one of
    the nine positions, and the word there goes once through
    [introduce_error]; corruption returns the text in which that word is
    replaced by the result, the other eight words being kept, so the text
    still has nine words; the word put back can be the word that was there,
    so at most one word differs. *)
Theorem fox_light_at_most_one_word (fuel : nat) (g : rng) :
  exists (i : nat) (w w' t' : str) (g' : rng),
    Nat.max 1 (length (split fox) / 50) = 1
    /\ i = N.to_nat (tape g (pos g) mod 9)
    /\ nth_error (split fox) i = Some w
    /\ introduce_error (S fuel) w 1 (advance g) = Ok (w', g')
    /\ add_errors_to_text (S fuel) fox 1 g = Ok (t', g')
    /\ split t' = list_set i w' (split fox)
    /\ length (split t') = 9
    /\ changed_words (split fox) (split t') <= 1.
Proof.
  destruct (@add_errors_to_text_light fuel fox g)
    as (i & w & w' & g' & Hi & Hw & Hie & Hw' & E).
  - vm_compute. discriminate.
  - vm_compute. lia.
  - assert (Hs : split (join (lit " ") (list_set i w' (split fox)))
                 = list_set i w' (split fox)).
    { apply split_join, Forall_list_set; [exact Hw' | apply split_wordlike]. }
    exists i, w, w', (join (lit " ") (list_set i w' (split fox))), g'.
    split; [reflexivity|]. split; [exact Hi|]. split; [exact Hw|].
    split; [exact Hie|]. split; [exact E|]. split; [exact Hs|]. split.
    + rewrite Hs, list_set_length. reflexivity.
    + rewrite Hs. apply changed_words_set.
Qed.

(** One word does differ on other tapes: here "fox" becomes "fzx". *)
Lemma fox_light_one_word_changed :
  add_errors_to_text 1 fox 1 (rng_of_list [3%N; 0%N; 1%N; 25%N] 0%N)
  = Ok (lit "the quick brown fzx jumps over the lazy dog",
        mkRng (tape (rng_of_list [3%N; 0%N; 1%N; 25%N] 0%N)) 4)
  /\ changed_words
       (split fox)
       (split (lit "the quick brown fzx jumps over the lazy dog")) = 1.
Proof. split; reflexivity. Qed.

(** The claim C6 as it is worded fails: when the edit kind drawn at degree
    1 is scramble, the text comes back as it was and no word has changed. *)
Lemma fox_light_no_word_changed :
  add_errors_to_text 1 fox 1 (rng_of_list [3%N; 4%N] 0%N)
  = Ok (fox, mkRng (tape (rng_of_list [3%N; 4%N] 0%N)) 2)
  /\ changed_words (split fox) (split fox) <> 1.
Proof.
  split; [reflexivity | vm_compute; discriminate].
Qed.

End Light.

(** ** The corrupted frame *)

Section Inject.

Lemma calm_rng_of_list (l : list N) (d : N) :
  float_lt (unit_float d) float_0_5 = false ->
  calm (tape (rng_of_list l d)) (length l).
Proof.
  intros Hd i Hi. cbn [tape rng_of_list].
  rewrite nth_overflow by exact Hi. exact Hd.
Qed.

Lemma has_word_not_no_word (df : list record) :
  Forall has_word df -> Exists no_word df -> False.
Proof.
  intros Hall Hex. apply Exists_exists in Hex.
  destruct Hex as (r & Hin & Hr).
  exact (proj1 (Forall_forall _ _) Hall r Hin Hr).
Qed.

(** With a calm tape and fuel beyond the calm point: the frame comes back
    if every text has a word, [ValueError] is raised if one has none. *)
Lemma inject_ends (fuel k : nat) (df : list record) (degree : Z) (g : rng) :
  valid_degree degree -> calm (tape g) k -> k < fuel ->
  (Forall has_word df ->
   exists df' g', inject_spelling_errors fuel df degree g = Ok (df', g'))
  /\ (Exists no_word df ->
      inject_spelling_errors fuel df degree g = Raise ValueError).
Proof.
  intros Hdeg Hcalm Hk.
  pose proof (@inject_outcome_calm fuel degree df g Hdeg) as H.
  unfold outcome in H.
  destruct (inject_spelling_errors fuel df degree g) as [[df' g']|e|].
  - split; [eauto|]. intros Hex. exfalso.
    eapply has_word_not_no_word; [apply H | exact Hex].
  - destruct H as [-> H]. split; [|reflexivity].
    intros Hall. exfalso. exact (has_word_not_no_word Hall H).
  - specialize (H k Hcalm). lia.
Qed.

(** The same at degree 1, on every tape, with any fuel but none. *)
Lemma inject_ends_light (fuel : nat) (df : list record) (g : rng) :
  (Forall has_word df ->
   exists df' g', inject_spelling_errors (S fuel) df 1 g = Ok (df', g'))
  /\ (Exists no_word df ->
      inject_spelling_errors (S fuel) df 1 g = Raise ValueError).
Proof.
  pose proof (inject_outcome_light fuel df g) as H.
  unfold outcome in H.
  destruct (inject_spelling_errors (S fuel) df 1 g) as [[df' g']|e|].
  - split; [eauto|]. intros Hex. exfalso.
    eapply has_word_not_no_word; [apply H | exact Hex].
  - destruct H as [-> H]. split; [|reflexivity].
    intros Hall. exfalso. exact (has_word_not_no_word Hall H).
  - contradiction.
Qed.

Lemma same_frame_length (df df' : list record) :
  same_frame df df' -> length df' = length df.
Proof. intros H. symmetry. eapply Forall2_length, H. Qed.

(** C1.  Whenever [inject_spelling_errors] returns, at any degree and for
    any frame, the frame it returns has as many rows as its input and every
    row has the id and the sentiment of the input row at its place.  And it
    does return for a frame whose texts all have a word: at degree 1 on
    every tape, and at degree 2 or 3 once the fuel reaches beyond the
    compounding draws of the tape. *)
Theorem inject_spelling_errors_frame
        (fuel : nat) (df : list record) (degree : Z) (g : rng) :
  (forall df' g',
      inject_spelling_errors fuel df degree g = Ok (df', g') ->
      length df' = length df /\ same_frame df df')
  /\ (valid_degree degree -> Forall has_word df ->
      forall k, calm (tape g) k -> k < fuel ->
                exists df' g',
                  inject_spelling_errors fuel df degree g = Ok (df', g'))
  /\ (degree = 1%Z -> Forall has_word df -> 0 < fuel ->
      exists df' g',
        inject_spelling_errors fuel df degree g = Ok (df', g')).
Proof.
  split; [|split].
  - intros df' g' E.
    assert (H : same_frame df df') by (eapply apply_text_frame, E).
    split; [apply same_frame_length, H | exact H].
  - intros Hdeg Hdf k Hcalm Hk.
    apply (proj1 (@inject_ends fuel k df degree g Hdeg Hcalm Hk) Hdf).
  - intros -> Hdf Hfuel. destruct fuel as [|fuel]; [lia|].
    apply (proj1 (inject_ends_light fuel df g) Hdf).
Qed.

Lemma inject_spelling_errors_frame_witness :
  exists df' g',
    inject_spelling_errors
      4 [mkRecord 7 fox (VStr (lit "positive"))] 3
      (rng_of_list [3%N; 2%N; 1%N] 4503599627370496%N) = Ok (df', g')
    /\ length df' = 1
    /\ same_frame [mkRecord 7 fox (VStr (lit "positive"))] df'.
Proof.
  destruct (@inject_spelling_errors_frame
              4 [mkRecord 7 fox (VStr (lit "positive"))] 3%Z
              (rng_of_list [3%N; 2%N; 1%N] 4503599627370496%N))
    as (Hframe & Hret & _).
  destruct (Hret (or_intror (or_intror eq_refl))) with (k := 3)
    as (df' & g' & E).
  - repeat constructor. vm_compute. discriminate.
  - apply (@calm_rng_of_list [3%N; 2%N; 1%N] 4503599627370496%N).
    reflexivity.
  - lia.
  - exists df', g'. split; [exact E|]. apply Hframe in E. exact E.
Defined.

(** C10.  At a degree of 1, 2 or 3, on a frame whose texts all have a
    word: every text of the frame [inject_spelling_errors] returns splits
    into as many words as the text it comes from; the frame is returned at
    degree 1 on every tape, and at degree 2 or 3 once the fuel reaches
    beyond the compounding draws.  The reason is in [introduce_error]: what
    it makes of a word (not empty, no whitespace) is a word again. *)
Theorem corrupted_text_word_count
        (fuel : nat) (df : list record) (degree : Z) (g : rng) :
  valid_degree degree -> Forall has_word df ->
  (forall df' g',
      inject_spelling_errors fuel df degree g = Ok (df', g') ->
      same_word_counts df df')
  /\ (forall k, calm (tape g) k -> k < fuel ->
                exists df' g',
                  inject_spelling_errors fuel df degree g = Ok (df', g'))
  /\ (degree = 1%Z -> 0 < fuel ->
      exists df' g',
        inject_spelling_errors fuel df degree g = Ok (df', g'))
  /\ (forall w w' g',
         wordlike w -> introduce_error fuel w degree g = Ok (w', g') ->
         wordlike w').
Proof.
  intros Hdeg Hdf. split; [|split; [|split]].
  - intros df' g' E.
    pose proof (@inject_outcome_calm fuel degree df g Hdeg) as H.
    unfold outcome in H. rewrite E in H. apply H.
  - intros k Hcalm Hk.
    apply (proj1 (@inject_ends fuel k df degree g Hdeg Hcalm Hk) Hdf).
  - intros -> Hfuel. destruct fuel as [|fuel]; [lia|].
    apply (proj1 (inject_ends_light fuel df g) Hdf).
  - intros w w' g' Hw E.
    pose proof (introduce_error_spec fuel w degree g) as H.
    rewrite E in H. apply H, Hw.
Qed.

Lemma corrupted_text_word_count_witness :
  exists df' g',
    inject_spelling_errors
      4 [mkRecord 7 fox (VStr (lit "positive"))] 3
      (rng_of_list [3%N; 2%N; 1%N] 4503599627370496%N) = Ok (df', g')
    /\ same_word_counts [mkRecord 7 fox (VStr (lit "positive"))] df'.
Proof.
  destruct (@corrupted_text_word_count
              4 [mkRecord 7 fox (VStr (lit "positive"))] 3%Z
              (rng_of_list [3%N; 2%N; 1%N] 4503599627370496%N))
    as (Hcount & Hret & _).
  - right. right. reflexivity.
  - repeat constructor. vm_compute. discriminate.
  - destruct (Hret 3) as (df' & g' & E).
    + apply (@calm_rng_of_list [3%N; 2%N; 1%N] 4503599627370496%N).
      reflexivity.
    + lia.
    + exists df', g'. split; [exact E | apply (Hcount df' g' E)].
Defined.

Lemma inject_no_word (fuel : nat) (df : list record) (degree : Z) (g : rng) :
  Exists no_word df ->
  forall df' g', inject_spelling_errors fuel df degree g <> Ok (df', g').
Proof.
  intros Hex df' g' E.
  assert (Hdec : valid_degree degree \/ ~ valid_degree degree).
  { unfold valid_degree.
    destruct (Z.eq_dec degree 1); [tauto|].
    destruct (Z.eq_dec degree 2); [tauto|].
    destruct (Z.eq_dec degree 3); tauto. }
  destruct Hdec as [Hdeg|Hdeg].
  - pose proof (@inject_outcome_calm fuel degree df g Hdeg) as H.
    unfold outcome in H. rewrite E in H. destruct H as [Hall _].
    exact (has_word_not_no_word Hall Hex).
  - destruct df as [|r df]; [inversion Hex|].
    unfold inject_spelling_errors in E. cbn [apply_text] in E.
    unfold bind at 1 in E.
    rewrite (@add_errors_to_text_unbound fuel degree (text r) g Hdeg) in E.
    discriminate.
Qed.

Lemma add_errors_to_text_no_word (fuel : nat) (txt : str) (degree : Z)
      (g : rng) :
  valid_degree degree -> split txt = [] ->
  add_errors_to_text fuel txt degree g = Raise ValueError.
Proof.
  intros Hdeg Hs. unfold add_errors_to_text. rewrite Hs.
  destruct Hdeg as [-> | [-> | ->]]; reflexivity.
Qed.

(** C8.  A frame with a text that has no word (empty, or whitespace only)
    never comes back from [inject_spelling_errors]: corrupting such a text
    at a degree of 1, 2 or 3 asks [randint] for an index in the empty range
    from 0 to -1, which raises [ValueError], and that is how the whole call
    ends, at degree 1 on every tape, and at degree 2 or 3 once the fuel
    reaches beyond the compounding draws of the rows before it. *)
Theorem inject_spelling_errors_no_word_fatal
        (fuel : nat) (df : list record) (degree : Z) (g : rng) :
  Exists no_word df ->
  (forall df' g', inject_spelling_errors fuel df degree g <> Ok (df', g'))
  /\ (valid_degree degree ->
      (forall r, In r df -> no_word r ->
                 forall g0, add_errors_to_text fuel (text r) degree g0
                            = Raise ValueError)
      /\ (forall k, calm (tape g) k -> k < fuel ->
                    inject_spelling_errors fuel df degree g
                    = Raise ValueError)
      /\ (degree = 1%Z -> 0 < fuel ->
          inject_spelling_errors fuel df degree g = Raise ValueError)).
Proof.
  intros Hex. split; [apply inject_no_word, Hex|].
  intros Hdeg. split; [|split].
  - intros r _ Hr g0. apply add_errors_to_text_no_word; assumption.
  - intros k Hcalm Hk.
    apply (proj2 (@inject_ends fuel k df degree g Hdeg Hcalm Hk) Hex).
  - intros -> Hfuel. destruct fuel as [|fuel]; [lia|].
    apply (proj2 (inject_ends_light fuel df g) Hex).
Qed.

Lemma inject_spelling_errors_no_word_fatal_witness :
  inject_spelling_errors
    1 [mkRecord 0 fox (VStr (lit "positive"));
       mkRecord 1 (lit "  ") (VStr (lit "negative"))] 1
    (rng_of_list [] 4503599627370496%N) = Raise ValueError.
Proof.
  destruct (@inject_spelling_errors_no_word_fatal
              1 [mkRecord 0 fox (VStr (lit "positive"));
                 mkRecord 1 (lit "  ") (VStr (lit "negative"))] 1%Z
              (rng_of_list [] 4503599627370496%N)) as [_ H].
  - right. left. reflexivity.
  - destruct (H (or_introl eq_refl)) as (_ & _ & H').
    apply H'; [reflexivity | lia].
Defined.

End Inject.

(** ** The loops of the normalizers *)

Section ForEach.

Variable A : Type.
Variable body : nat -> A -> result (option record).

Hypothesis body_id :
  forall idx x r, body idx x = Ok (Some r) -> id r = idx.

(** What the loop has appended when it ends: records whose ids are the
    positions of the items they come from, in increasing order. *)
Lemma for_each_emitted (items : list A) :
  forall (start : nat) (data out : list record),
    for_each body (enumerate start items) data = Ok out ->
    exists out',
      out = data ++ out'
      /\ Forall (fun r => start <= id r
                          /\ exists x, nth_error items (id r - start) = Some x
                                       /\ body (id r) x = Ok (Some r)) out'
      /\ StronglySorted lt (map id out').
Proof.
  induction items as [|x items IH]; intros start data out E.
  - injection E as <-. exists []. rewrite app_nil_r.
    repeat split; constructor.
  - cbn [enumerate for_each] in E.
    destruct (body start x) as [o| |] eqn:Eb; try discriminate.
    cbn [rbind] in E. apply IH in E. destruct E as (out' & -> & Hall & Hs).
    assert (Hshift :
              Forall (fun r => start <= id r
                               /\ exists y,
                                   nth_error (x :: items) (id r - start)
                                   = Some y
                                   /\ body (id r) y = Ok (Some r)) out').
    { eapply Forall_impl; [|exact Hall].
      intros r (Hle & y & Hy & Hb). split; [lia|]. exists y. split; [|exact Hb].
      replace (id r - start) with (S (id r - S start)) by lia. exact Hy. }
    destruct o as [rec|].
    + exists (rec :: out'). rewrite <- app_assoc. split; [reflexivity|].
      pose proof (body_id Eb) as Hid. split.
      * constructor; [|exact Hshift]. split; [lia|]. exists x.
        rewrite Hid, Nat.sub_diag. split; [reflexivity | exact Eb].
      * cbn [map]. constructor; [exact Hs|].
        apply Forall_map. eapply Forall_impl; [|exact Hall].
        intros r [Hle _]. cbn beta. lia.
    + exists out'. auto.
Qed.

Lemma for_each_returns (items : list A) :
  forall (start : nat) (data : list record),
    (forall idx x, In x items -> exists o, body idx x = Ok o) ->
    exists out, for_each body (enumerate start items) data = Ok out.
Proof.
  induction items as [|x items IH]; intros start data Hok.
  - exists data. reflexivity.
  - cbn [enumerate for_each].
    destruct (Hok start x (or_introl eq_refl)) as [o ->]. cbn [rbind].
    apply IH. intros idx y Hy. apply Hok. right. exact Hy.
Qed.

(** A body that appends at every item drops none. *)
Lemma for_each_length (items : list A) :
  (forall idx x, body idx x <> Ok None) ->
  forall (start : nat) (data out : list record),
    for_each body (enumerate start items) data = Ok out ->
    length out = length data + length items.
Proof.
  intros Hsome. induction items as [|x items IH]; intros start data out E.
  - injection E as <-. simpl. lia.
  - cbn [enumerate for_each] in E.
    destruct (body start x) as [[rec|]| |] eqn:Eb; try discriminate.
    + cbn [rbind] in E. apply IH in E. rewrite E, length_app. simpl. lia.
    + exfalso. exact (Hsome _ _ Eb).
Qed.

End ForEach.

(** ** The loop bodies *)

Section Bodies.

Local Open Scope result_scope.

Lemma movie_body_some (idx : nat) (rw : row) (r : record) :
  movie_body idx rw = Ok (Some r) ->
  id r = idx
  /\ exists review,
      row_get (lit "review") rw = Ok (VStr review)
      /\ row_get (lit "sentiment") rw = Ok (sentiment r)
      /\ text r = strip (replace (lit "<br />") (lit " ") review).
Proof.
  unfold movie_body. intros E.
  destruct (row_get (lit "review") rw) as [v| |]; try discriminate.
  cbn [rbind] in E. destruct v; try discriminate. cbn [as_str rbind] in E.
  destruct (row_get (lit "sentiment") rw) as [sv| |]; try discriminate.
  cbn [rbind] in E. injection E as <-. cbn [id text sentiment].
  split; [reflexivity|]. exists s. auto.
Qed.

Lemma movie_body_not_none (idx : nat) (rw : row) :
  movie_body idx rw <> Ok None.
Proof.
  unfold movie_body. intros E.
  destruct (row_get (lit "review") rw) as [v| |]; try discriminate.
  cbn [rbind] in E. destruct v; try discriminate. cbn [as_str rbind] in E.
  destruct (row_get (lit "sentiment") rw) as [sv| |]; discriminate.
Qed.

Lemma movie_body_returns (idx : nat) (rw : row) :
  movie_well_formed rw -> exists o, movie_body idx rw = Ok o.
Proof.
  intros (review & sv & E1 & E2). unfold movie_body.
  rewrite E1. cbn [rbind as_str]. rewrite E2. cbn [rbind]. eauto.
Qed.

Lemma bad_overall_rating (v : value) :
  bad_overall v ->
  in_floats v [1%Q; 2%Q] = false /\ eq_float v 3%Q = false
  /\ in_floats v [4%Q; 5%Q] = false.
Proof.
  intros [-> | (q & -> & Hq)]; [repeat split; reflexivity|].
  assert (Hne : forall x : Q,
             (q == x)%Q -> (x == 1 \/ x == 2 \/ x == 3 \/ x == 4 \/ x == 5)%Q ->
             False).
  { intros x Hx Hor. apply Hq. rewrite Hx. exact Hor. }
  assert (Hb : forall x : Q,
             (x == 1 \/ x == 2 \/ x == 3 \/ x == 4 \/ x == 5)%Q ->
             Qeq_bool q x = false).
  { intros x Hor. destruct (Qeq_bool q x) eqn:E; [|reflexivity].
    apply Qeq_bool_iff in E. exfalso. exact (Hne x E Hor). }
  unfold in_floats, eq_float. cbn [existsb].
  rewrite !Hb; [repeat split; reflexivity | | | | | ];
    repeat (try (left; reflexivity); right); reflexivity.
Qed.

Lemma fashion_body_some (idx : nat) (line : option value) (r : record) :
  fashion_body idx line = Ok (Some r) ->
  id r = idx
  /\ exists d s,
      line = Some (VDict d)
      /\ dict_get (lit "reviewText") d = VStr s
      /\ s <> []
      /\ text r = strip s
      /\ ~ bad_overall (dict_get (lit "overall") d)
      /\ in_vocabulary (sentiment r).
Proof.
  unfold fashion_body. intros E.
  destruct line as [v|]; [|discriminate]. cbn [rbind] in E.
  destruct v; try discriminate. cbn [rbind] in E.
  destruct (truthy (dict_get (lit "reviewText") d)) eqn:Et;
    [|discriminate]. cbn [negb] in E.
  assert (Hbad : forall label,
             (if in_floats (dict_get (lit "overall") d) [1%Q; 2%Q]
              then Some (lit "negative")
              else if eq_float (dict_get (lit "overall") d) 3%Q
                   then Some (lit "neutral")
                   else if in_floats (dict_get (lit "overall") d) [4%Q; 5%Q]
                        then Some (lit "positive")
                        else None) = Some label ->
             ~ bad_overall (dict_get (lit "overall") d)
             /\ In label vocabulary).
  { intros label El. split.
    - intros Hb. apply bad_overall_rating in Hb.
      destruct Hb as (H1 & H2 & H3). rewrite H1, H2, H3 in El. discriminate.
    - destruct (in_floats (dict_get (lit "overall") d) [1%Q; 2%Q]);
        [injection El as <-; right; left; reflexivity|].
      destruct (eq_float (dict_get (lit "overall") d) 3%Q);
        [injection El as <-; right; right; left; reflexivity|].
      destruct (in_floats (dict_get (lit "overall") d) [4%Q; 5%Q]);
        [injection El as <-; left; reflexivity | discriminate]. }
  destruct (if in_floats (dict_get (lit "overall") d) [1%Q; 2%Q]
            then Some (lit "negative")
            else if eq_float (dict_get (lit "overall") d) 3%Q
                 then Some (lit "neutral")
                 else if in_floats (dict_get (lit "overall") d) [4%Q; 5%Q]
                      then Some (lit "positive")
                      else None) as [label|]; [|discriminate].
  destruct (Hbad label eq_refl) as [Hnb Hin].
  destruct (dict_get (lit "reviewText") d) as [| | | |s| |] eqn:Er;
    try discriminate.
  cbn [as_str rbind] in E. injection E as <-. cbn [id text sentiment].
  split; [reflexivity|]. exists d, s.
  split; [reflexivity|]. split; [exact Er|].
  split; [intros ->; discriminate|]. split; [reflexivity|].
  split; [exact Hnb|]. exists label. auto.
Qed.

Lemma fashion_body_returns (idx : nat) (line : option value) :
  fashion_well_formed line -> exists o, fashion_body idx line = Ok o.
Proof.
  intros (d & -> & Hr). unfold fashion_body. cbn [rbind].
  destruct Hr as [-> | [s ->]]; [cbn; eauto|].
  destruct (negb (truthy (VStr s))); [eauto|].
  destruct (if in_floats (dict_get (lit "overall") d) [1%Q; 2%Q]
            then Some (lit "negative")
            else if eq_float (dict_get (lit "overall") d) 3%Q
                 then Some (lit "neutral")
                 else if in_floats (dict_get (lit "overall") d) [4%Q; 5%Q]
                      then Some (lit "positive")
                      else None); cbn [as_str rbind]; eauto.
Qed.

Lemma news_body_some (idx : nat) (rw : news_row) (r : record) :
  news_body idx rw = Ok (Some r) ->
  id r = idx
  /\ exists s t,
      rw = mkNews (VStr s) (VStr t)
      /\ text r = strip t
      /\ text r <> []
      /\ sentiment r = VStr (lower (strip s))
      /\ lower (strip s) <> [].
Proof.
  unfold news_body. destruct rw as [sv tv]. cbn [news_sentiment news_text].
  intros E. destruct sv; try discriminate. cbn [as_str rbind] in E.
  destruct tv; try discriminate. cbn [as_str rbind] in E.
  destruct (lower (strip s)) as [|c1 l1] eqn:El;
    cbn [truthy negb orb] in E; [discriminate|].
  destruct (strip s0) as [|c2 l2] eqn:Et;
    cbn [truthy negb orb] in E; [discriminate|].
  injection E as <-. cbn [id text sentiment].
  split; [reflexivity|]. exists s, s0. rewrite Et, El.
  repeat split; try reflexivity; discriminate.
Qed.

Lemma news_body_returns (idx : nat) (rw : news_row) :
  news_well_formed rw -> exists o, news_body idx rw = Ok o.
Proof.
  intros (s & t0 & Hs & Ht). unfold news_body.
  rewrite Hs, Ht. cbn [as_str rbind].
  destruct (negb (truthy (VStr (lower (strip s))))
            || negb (truthy (VStr (strip t0)))); eauto.
Qed.

End Bodies.

(** ** The normalizers *)

Section Normalizers.

(** C7, as the code has it.  On the two-row table of the scenario,
    [format_movie_reviews_for_evaluate] returns the two records with ids 0
    and 1 and the labels of the rows; the line-break marker of the first
    review is replaced by one space, so that its text reads
    "Great movie! Loved it". *)
Theorem movie_two_reviews :
  format_movie_reviews_for_evaluate two_reviews
  = Ok [mkRecord 0 (lit "Great movie! Loved it") (VStr (lit "positive"));
        mkRecord 1 (lit "Bad.") (VStr (lit "negative"))].
Proof. reflexivity. Qed.

(** The claim C7 as it is worded fails: the text of the first record does
    not have two spaces between "movie!" and "Loved". *)
Lemma movie_scenario_not_two_spaces :
  format_movie_reviews_for_evaluate two_reviews
  <> Ok [mkRecord 0 (lit "Great movie!  Loved it") (VStr (lit "positive"));
         mkRecord 1 (lit "Bad.") (VStr (lit "negative"))].
Proof. vm_compute. discriminate. Qed.

Lemma format_movie_emitted (df : list row) (out : list record) :
  format_movie_reviews_for_evaluate df = Ok out ->
  length out = length df /\ Forall (movie_record df) out.
Proof.
  unfold format_movie_reviews_for_evaluate. intros E. split.
  - apply (@for_each_length row movie_body df movie_body_not_none 0 [] out E).
  - destruct (@for_each_emitted row movie_body
                (fun idx x r H => proj1 (@movie_body_some idx x r H))
                df 0 [] out E) as (out' & -> & Hall & _).
    cbn [app]. eapply Forall_impl; [|exact Hall].
    intros r (_ & rw & Hrw & Hb). rewrite Nat.sub_0_r in Hrw.
    apply movie_body_some in Hb. destruct Hb as (_ & review & H1 & H2 & H3).
    exists rw, review. auto.
Qed.

Lemma format_fashion_emitted (lines : list (option value))
      (out : list record) :
  format_fashion_reviews_for_evaluate lines = Ok out ->
  Forall (fashion_record lines) out /\ StronglySorted lt (map id out).
Proof.
  unfold format_fashion_reviews_for_evaluate. intros E.
  destruct (@for_each_emitted (option value) fashion_body
              (fun idx x r H => proj1 (@fashion_body_some idx x r H))
              lines 0 [] out E) as (out' & -> & Hall & Hs).
  cbn [app]. split; [|exact Hs].
  eapply Forall_impl; [|exact Hall].
  intros r (_ & line & Hline & Hb). rewrite Nat.sub_0_r in Hline.
  apply fashion_body_some in Hb.
  destruct Hb as (_ & d & s & -> & H1 & H2 & H3 & H4 & H5).
  exists d, s. auto 7.
Qed.

Lemma format_news_emitted (df : list news_row) (out : list record) :
  format_financial_news_for_evaluate df = Ok out ->
  Forall (news_record df) out.
Proof.
  unfold format_financial_news_for_evaluate. intros E.
  destruct (@for_each_emitted news_row news_body
              (fun idx x r H => proj1 (@news_body_some idx x r H))
              df 0 [] out E) as (out' & -> & Hall & _).
  cbn [app]. eapply Forall_impl; [|exact Hall].
  intros r (_ & rw & Hrw & Hb). rewrite Nat.sub_0_r in Hrw.
  apply news_body_some in Hb.
  destruct Hb as (_ & s & t0 & -> & H1 & H2 & H3 & H4).
  exists s, t0. auto.
Qed.

(** C2, as the code has it.  The financial-news normalizer returns only
    records with a non-empty trimmed text and a non-empty, trimmed and
    lower-cased label, whatever word that label is.  The fashion normalizer
    returns only records whose label is one of negative, neutral and
    positive, with the trimmed text of a [reviewText] that is not empty.  The
    movie normalizer filters nothing: one record per row, its text the
    cleaned review and its label the [sentiment] cell as it is.  Each
    normalizer returns on a well-formed input. *)
Theorem normalizers_output :
  (forall df,
      (Forall news_well_formed df ->
       exists out, format_financial_news_for_evaluate df = Ok out)
      /\ forall out, format_financial_news_for_evaluate df = Ok out ->
                     Forall (news_record df) out)
  /\ (forall lines,
         (Forall fashion_well_formed lines ->
          exists out, format_fashion_reviews_for_evaluate lines = Ok out)
         /\ forall out, format_fashion_reviews_for_evaluate lines = Ok out ->
                        Forall (fashion_record lines) out)
  /\ (forall df,
         (Forall movie_well_formed df ->
          exists out, format_movie_reviews_for_evaluate df = Ok out)
         /\ forall out, format_movie_reviews_for_evaluate df = Ok out ->
                        length out = length df
                        /\ Forall (movie_record df) out).
Proof.
  split; [|split].
  - intros df. split; [|apply format_news_emitted].
    intros Hwf. apply for_each_returns. intros idx x Hx.
    apply news_body_returns.
    exact (proj1 (Forall_forall _ _) Hwf x Hx).
  - intros lines. split; [|intros out E; apply format_fashion_emitted, E].
    intros Hwf. apply for_each_returns. intros idx x Hx.
    apply fashion_body_returns.
    exact (proj1 (Forall_forall _ _) Hwf x Hx).
  - intros df. split; [|apply format_movie_emitted].
    intros Hwf. apply for_each_returns. intros idx x Hx.
    apply movie_body_returns.
    exact (proj1 (Forall_forall _ _) Hwf x Hx).
Qed.

Lemma normalizers_output_witness :
  Forall (news_record [mkNews (VStr (lit " Positive ")) (VStr (lit "Up 5%"));
                       mkNews (VStr (lit "neutral")) (VStr (lit "  "))])
         [mkRecord 0 (lit "Up 5%") (VStr (lit "positive"))].
Proof.
  destruct normalizers_output as [Hnews _].
  apply (proj2 (Hnews [mkNews (VStr (lit " Positive ")) (VStr (lit "Up 5%"));
                       mkNews (VStr (lit "neutral")) (VStr (lit "  "))])).
  reflexivity.
Defined.

(** The claim C2 as it is worded fails.  On the movie normalizer: a review
    that is only a line-break marker, labelled with a word outside the
    vocabulary, comes out as a record with an empty text and that label.  On
    the financial-news normalizer: a label outside the vocabulary is kept,
    lower-cased. *)
Lemma normalizers_outside_vocabulary :
  (format_movie_reviews_for_evaluate
     [movie_row (VStr (lit "<br />")) (VStr (lit "meh"))]
   = Ok [mkRecord 0 [] (VStr (lit "meh"))]
   /\ text (mkRecord 0 [] (VStr (lit "meh"))) = []
   /\ ~ in_vocabulary (sentiment (mkRecord 0 [] (VStr (lit "meh")))))
  /\ (format_financial_news_for_evaluate
        [mkNews (VStr (lit "Mixed")) (VStr (lit "Shares flat"))]
      = Ok [mkRecord 0 (lit "Shares flat") (VStr (lit "mixed"))]
      /\ ~ in_vocabulary
           (sentiment (mkRecord 0 (lit "Shares flat") (VStr (lit "mixed"))))).
Proof.
  split.
  - split; [reflexivity|]. split; [reflexivity|].
    intros (s & E & Hin). injection E as <-.
    cbv in Hin. intuition discriminate.
  - split; [reflexivity|].
    intros (s & E & Hin). injection E as <-.
    cbv in Hin. intuition discriminate.
Qed.


(** The other two normalizers can return a text without a word, which the
    corruptor then fails on. *)
Lemma fashion_blank_review_text :
  format_fashion_reviews_for_evaluate
    [fashion_line (VStr (lit "   ")) (VNum 3)]
  = Ok [mkRecord 0 [] (VStr (lit "neutral"))].
Proof. reflexivity. Qed.

Lemma movie_blank_review_not_corrupted (fuel : nat) (g : rng) :
  format_movie_reviews_for_evaluate
    [movie_row (VStr (lit "<br />")) (VStr (lit "positive"))]
  = Ok [mkRecord 0 [] (VStr (lit "positive"))]
  /\ inject_spelling_errors fuel [mkRecord 0 [] (VStr (lit "positive"))] 1 g
     = Raise ValueError.
Proof. split; reflexivity. Qed.

Lemma nth_error_in_range {A : Type} (l : list A) (i : nat) (x : A) :
  nth_error l i = Some x -> i < length l.
Proof. intros E. apply nth_error_Some. congruence. Qed.

(** C9.  In what [format_fashion_reviews_for_evaluate] returns, every record
    carries as id the position, among all the lines read, of the line it
    comes from; so the ids are positions of input lines, strictly
    increasing, and no record has the position of a line whose [overall] is
    missing or is a number other than 1, 2, 3, 4 and 5, such as 3.5.  The
    function returns on a well-formed input. *)
Theorem fashion_ids (lines : list (option value)) :
  (Forall fashion_well_formed lines ->
   exists out, format_fashion_reviews_for_evaluate lines = Ok out)
  /\ forall out,
      format_fashion_reviews_for_evaluate lines = Ok out ->
      StronglySorted lt (map id out)
      /\ Forall (fun r => id r < length lines) out
      /\ Forall (fashion_record lines) out
      /\ (forall i d,
             nth_error lines i = Some (Some (VDict d)) ->
             bad_overall (dict_get (lit "overall") d) ->
             forall r, In r out -> id r <> i)
      /\ (forall i review_text,
             nth_error lines i
             = Some (fashion_line review_text (VNum (7 # 2))) ->
             forall r, In r out -> id r <> i).
Proof.
  split.
  - intros Hwf. apply for_each_returns. intros idx x Hx.
    apply fashion_body_returns.
    exact (proj1 (Forall_forall _ _) Hwf x Hx).
  - intros out E. apply format_fashion_emitted in E.
    destruct E as [Hall Hs].
    assert (Hdrop : forall i d,
               nth_error lines i = Some (Some (VDict d)) ->
               bad_overall (dict_get (lit "overall") d) ->
               forall r, In r out -> id r <> i).
    { intros i d Hi Hbad r Hr <-.
      destruct (proj1 (Forall_forall _ _) Hall r Hr)
        as (d' & s & Hline & _ & _ & _ & Hnb & _).
      rewrite Hi in Hline. injection Hline as <-. exact (Hnb Hbad). }
    split; [exact Hs|]. split; [|split; [exact Hall|split; [exact Hdrop|]]].
    + eapply Forall_impl; [|exact Hall].
      intros r (d & s & Hline & _). eapply nth_error_in_range, Hline.
    + intros i review_text Hi. eapply Hdrop; [exact Hi|].
      right. exists (7 # 2)%Q. split; [reflexivity|].
      unfold Qeq. cbn. lia.
Qed.

Lemma fashion_ids_witness :
  StronglySorted lt [0; 3]
  /\ forall r,
      In r [mkRecord 0 (lit "Great product") (VStr (lit "positive"));
            mkRecord 3 (lit "Fell apart") (VStr (lit "negative"))] ->
      id r <> 1.
Proof.
  destruct (proj2 (fashion_ids four_lines)
                  [mkRecord 0 (lit "Great product") (VStr (lit "positive"));
                   mkRecord 3 (lit "Fell apart") (VStr (lit "negative"))])
    as (Hs & _ & _ & _ & Hdrop).
  - reflexivity.
  - split; [exact Hs|].
    apply (Hdrop 1 (VStr (lit "So so"))). reflexivity.
Defined.

End Normalizers.

(** ** More on the loops of the normalizers *)

Section LoopFacts.

Variable A : Type.
Variable body : nat -> A -> result (option record).

(** Nothing the loop has appended is lost: every item whose body gives a
    record has that record in the result. *)
Lemma for_each_complete (items : list A) :
  forall (start : nat) (data out : list record),
    for_each body (enumerate start items) data = Ok out ->
    (forall r, In r data -> In r out)
    /\ (forall i x r,
           nth_error items i = Some x ->
           body (start + i) x = Ok (Some r) -> In r out).
Proof.
  induction items as [|x items IH]; intros start data out E.
  - injection E as <-. split; [auto|]. intros [|i] y r Hy; discriminate.
  - cbn [enumerate for_each] in E.
    destruct (body start x) as [o| |] eqn:Eb; try discriminate.
    cbn [rbind] in E. apply IH in E. destruct E as [Hdata Hitems].
    split.
    + intros r Hr. apply Hdata. destruct o; [apply in_or_app; left|]; exact Hr.
    + intros [|i] y r Hy Hb.
      * injection Hy as <-. rewrite Nat.add_0_r, Eb in Hb.
        injection Hb as ->. apply Hdata, in_or_app. right. left. reflexivity.
      * apply (Hitems i y r Hy). rewrite <- Hb. f_equal. lia.
Qed.

(** The first item whose body raises ends the loop with its exception. *)
Lemma for_each_raises (pre : list A) (x : A) (post : list A) (e : exn) :
  forall (start : nat) (data : list record),
    (forall idx y, In y pre -> exists o, body idx y = Ok o) ->
    body (start + length pre) x = Raise e ->
    for_each body (enumerate start (pre ++ x :: post)) data = Raise e.
Proof.
  induction pre as [|y pre IH]; intros start data Hpre Hx.
  - cbn [app enumerate for_each]. cbn [length] in Hx.
    rewrite Nat.add_0_r in Hx. rewrite Hx. reflexivity.
  - cbn [app enumerate for_each].
    destruct (Hpre start y (or_introl eq_refl)) as [o ->]. cbn [rbind].
    apply IH.
    + intros idx z Hz. apply Hpre. right. exact Hz.
    + rewrite <- Hx. f_equal. cbn [length]. lia.
Qed.


End LoopFacts.

Section NormalizerFacts.

Local Open Scope result_scope.



Lemma movie_pre_ok (pre : list row) :
  Forall movie_well_formed pre ->
  forall idx y, In y pre -> exists o, movie_body idx y = Ok o.
Proof.
  intros Hpre idx y Hy. apply movie_body_returns.
  exact (proj1 (Forall_forall _ _) Hpre y Hy).
Qed.

(** X2.  One bad row is fatal to [format_movie_reviews_for_evaluate], and
    nothing of the rows before it is returned: after well-formed rows, a row
    without the [review] column, or with a [review] that is a string but no
    [sentiment] column, raises [KeyError], and a row whose [review] cell is
    not a string (an empty cell, which pandas reads as NaN) raises
    [AttributeError]. *)
Theorem movie_bad_row_raises (pre : list row) (r : row) (post : list row) :
  Forall movie_well_formed pre ->
  (row_get (lit "review") r = Raise KeyError ->
   format_movie_reviews_for_evaluate (pre ++ r :: post) = Raise KeyError)
  /\ (forall v, row_get (lit "review") r = Ok v -> ~ is_str v ->
                format_movie_reviews_for_evaluate (pre ++ r :: post)
                = Raise AttributeError)
  /\ (forall s, row_get (lit "review") r = Ok (VStr s) ->
                row_get (lit "sentiment") r = Raise KeyError ->
                format_movie_reviews_for_evaluate (pre ++ r :: post)
                = Raise KeyError).
Proof.
  intros Hpre. pose proof (movie_pre_ok Hpre) as Hok.
  unfold format_movie_reviews_for_evaluate.
  split; [|split].
  - intros E. apply for_each_raises; [exact Hok|].
    unfold movie_body. rewrite E. reflexivity.
  - intros v E Hv. apply for_each_raises; [exact Hok|].
    unfold movie_body. rewrite E. cbn [rbind].
    destruct v; try reflexivity. exfalso. apply Hv. exists s. reflexivity.
  - intros s E1 E2. apply for_each_raises; [exact Hok|].
    unfold movie_body. rewrite E1. cbn [rbind as_str]. rewrite E2.
    reflexivity.
Qed.

Lemma movie_bad_row_raises_witness :
  format_movie_reviews_for_evaluate
    (two_reviews ++ movie_row VNonFinite (VStr (lit "positive")) :: [])
  = Raise AttributeError.
Proof.
  destruct (@movie_bad_row_raises
              two_reviews (movie_row VNonFinite (VStr (lit "positive"))) [])
    as (_ & H & _).
  - repeat constructor;
      [exists (lit "Great movie!<br />Loved it"), (VStr (lit "positive"))
      |exists (lit "Bad."), (VStr (lit "negative"))];
      split; reflexivity.
  - apply (H VNonFinite); [reflexivity|].
    intros [s E]. discriminate.
Defined.

Lemma fashion_pre_ok (pre : list (option value)) :
  Forall fashion_well_formed pre ->
  forall idx y, In y pre -> exists o, fashion_body idx y = Ok o.
Proof.
  intros Hpre idx y Hy. apply fashion_body_returns.
  exact (proj1 (Forall_forall _ _) Hpre y Hy).
Qed.

(** X3.  One bad line is fatal to [format_fashion_reviews_for_evaluate]:
    after well-formed lines, a line that is not JSON raises
    [JSONDecodeError], a line whose JSON value is not an object raises
    [AttributeError], and so does a line with a rating of 1 to 5 whose
    [reviewText] is truthy but not a string. *)
Theorem fashion_bad_line_raises
        (pre : list (option value)) (line : option value)
        (post : list (option value)) :
  Forall fashion_well_formed pre ->
  (line = None ->
   format_fashion_reviews_for_evaluate (pre ++ line :: post)
   = Raise JSONDecodeError)
  /\ (forall v, line = Some v -> (forall d, v <> VDict d) ->
                format_fashion_reviews_for_evaluate (pre ++ line :: post)
                = Raise AttributeError)
  /\ (forall d q,
         line = Some (VDict d) ->
         truthy (dict_get (lit "reviewText") d) = true ->
         ~ is_str (dict_get (lit "reviewText") d) ->
         dict_get (lit "overall") d = VNum q ->
         (q == 1 \/ q == 2 \/ q == 3 \/ q == 4 \/ q == 5)%Q ->
         format_fashion_reviews_for_evaluate (pre ++ line :: post)
         = Raise AttributeError).
Proof.
  intros Hpre. pose proof (fashion_pre_ok Hpre) as Hok.
  unfold format_fashion_reviews_for_evaluate.
  split; [|split].
  - intros ->. apply for_each_raises; [exact Hok | reflexivity].
  - intros v -> Hv. apply for_each_raises; [exact Hok|].
    unfold fashion_body. cbn [rbind].
    destruct v; try reflexivity. exfalso. exact (Hv d eq_refl).
  - intros d q -> Ht Hs Eo Hq. apply for_each_raises; [exact Hok|].
    unfold fashion_body. cbn [rbind]. rewrite Ht, Eo. cbn [negb].
    assert (Hlabel : exists label,
               (if in_floats (VNum q) [1%Q; 2%Q] then Some (lit "negative")
                else if eq_float (VNum q) 3%Q then Some (lit "neutral")
                     else if in_floats (VNum q) [4%Q; 5%Q]
                          then Some (lit "positive") else None)
               = Some label).
    { unfold in_floats, eq_float. cbn [existsb].
      destruct Hq as [H|[H|[H|[H|H]]]]; apply Qeq_bool_iff in H; rewrite H;
        repeat match goal with
               | |- context [Qeq_bool ?a ?b] => destruct (Qeq_bool a b)
               end; cbn [orb]; eauto. }
    destruct Hlabel as [label ->].
    destruct (dict_get (lit "reviewText") d); try reflexivity.
    exfalso. apply Hs. exists s. reflexivity.
Qed.

Lemma fashion_bad_line_raises_witness :
  format_fashion_reviews_for_evaluate (four_lines ++ None :: [])
  = Raise JSONDecodeError.
Proof.
  destruct (@fashion_bad_line_raises four_lines None []) as (H & _).
  - repeat constructor;
      [exists [(lit "reviewText", VStr (lit "Great product"));
               (lit "overall", VNum 5)]
      |exists [(lit "reviewText", VStr (lit "So so"));
               (lit "overall", VNum (7 # 2))]
      |exists [(lit "reviewText", VStr (lit "No rating"))]
      |exists [(lit "reviewText", VStr (lit "Fell apart"));
               (lit "overall", VNum 1)]];
      (split; [reflexivity | right; eexists; reflexivity]).
  - apply H. reflexivity.
Defined.

End NormalizerFacts.

(** ** Trimming and case *)

Section Trimming.

Lemma lstrip_fixed (s : str) :
  match s with [] => True | c :: _ => is_space c = false end ->
  lstrip s = s.
Proof. destruct s as [|c s]; simpl; [auto|]. intros ->. reflexivity. Qed.

Lemma lstrip_lstrip (s : str) : lstrip (lstrip s) = lstrip s.
Proof.
  apply lstrip_fixed. destruct (lstrip s) as [|c r] eqn:E; [exact I|].
  exact (lstrip_head _ E).
Qed.

Lemma lstrip_suffix (s : str) : exists p, s = p ++ lstrip s.
Proof.
  induction s as [|c s [p IH]]; [exists []; reflexivity|].
  simpl. destruct (is_space c).
  - exists (c :: p). simpl. f_equal. exact IH.
  - exists []. reflexivity.
Qed.

(** What [strip] returns starts and ends with no whitespace. *)
Lemma strip_trimmed (s : str) :
  lstrip (strip s) = strip s /\ rstrip (strip s) = strip s.
Proof.
  split.
  - apply lstrip_fixed. unfold strip, rstrip.
    destruct (lstrip_suffix (rev (lstrip s))) as [p Hp].
    destruct (rev (lstrip (rev (lstrip s)))) as [|c r] eqn:E; [exact I|].
    apply (f_equal (@rev char)) in Hp.
    rewrite rev_involutive, rev_app_distr, E in Hp. simpl in Hp.
    exact (lstrip_head _ Hp).
  - unfold strip, rstrip. rewrite rev_involutive, lstrip_lstrip. reflexivity.
Qed.









Lemma lower_nil (s : str) : lower s = [] <-> s = [].
Proof.
  split; [|intros ->; reflexivity].
  destruct s; [reflexivity | discriminate].
Qed.

End Trimming.

(** ** What the normalizers keep and drop *)

Section KeepAndDrop.

Local Open Scope result_scope.

(** X4.  The text of every record a normalizer returns is trimmed: it
    neither starts nor ends with whitespace. *)
Theorem normalizers_texts_trimmed :
  (forall df out, format_movie_reviews_for_evaluate df = Ok out ->
                  Forall (fun r => lstrip (text r) = text r
                                   /\ rstrip (text r) = text r) out)
  /\ (forall lines out, format_fashion_reviews_for_evaluate lines = Ok out ->
                        Forall (fun r => lstrip (text r) = text r
                                         /\ rstrip (text r) = text r) out)
  /\ (forall df out, format_financial_news_for_evaluate df = Ok out ->
                     Forall (fun r => lstrip (text r) = text r
                                      /\ rstrip (text r) = text r) out).
Proof.
  split; [|split].
  - intros df out E. apply format_movie_emitted in E. destruct E as [_ E].
    eapply Forall_impl; [|exact E].
    intros r (rw & review & _ & _ & _ & ->). apply strip_trimmed.
  - intros lines out E. apply format_fashion_emitted in E.
    destruct E as [E _]. eapply Forall_impl; [|exact E].
    intros r (d & s & _ & _ & _ & -> & _). apply strip_trimmed.
  - intros df out E. apply format_news_emitted in E.
    eapply Forall_impl; [|exact E].
    intros r (s & t0 & _ & -> & _). apply strip_trimmed.
Qed.

Lemma normalizers_texts_trimmed_witness :
  Forall (fun r => lstrip (text r) = text r /\ rstrip (text r) = text r)
         [mkRecord 0 (lit "Great movie! Loved it") (VStr (lit "positive"));
          mkRecord 1 (lit "Bad.") (VStr (lit "negative"))].
Proof.
  destruct normalizers_texts_trimmed as (H & _).
  apply (H two_reviews). reflexivity.
Defined.

Lemma rating_label (q : Q) :
  ((q == 1 \/ q == 2)%Q ->
   (if in_floats (VNum q) [1%Q; 2%Q] then Some (lit "negative")
    else if eq_float (VNum q) 3%Q then Some (lit "neutral")
         else if in_floats (VNum q) [4%Q; 5%Q]
              then Some (lit "positive") else None)
   = Some (lit "negative"))
  /\ ((q == 3)%Q ->
      (if in_floats (VNum q) [1%Q; 2%Q] then Some (lit "negative")
       else if eq_float (VNum q) 3%Q then Some (lit "neutral")
            else if in_floats (VNum q) [4%Q; 5%Q]
                 then Some (lit "positive") else None)
      = Some (lit "neutral"))
  /\ ((q == 4 \/ q == 5)%Q ->
      (if in_floats (VNum q) [1%Q; 2%Q] then Some (lit "negative")
       else if eq_float (VNum q) 3%Q then Some (lit "neutral")
            else if in_floats (VNum q) [4%Q; 5%Q]
                 then Some (lit "positive") else None)
      = Some (lit "positive")).
Proof.
  assert (Hne : forall a b : Q,
             (q == a)%Q -> (a == b)%Q -> Qeq_bool q b = true).
  { intros a b Ha Hab. apply Qeq_bool_iff. rewrite Ha. exact Hab. }
  assert (Hno : forall a b : Q,
             (q == a)%Q -> ~ (a == b)%Q -> Qeq_bool q b = false).
  { intros a b Ha Hab. destruct (Qeq_bool q b) eqn:E; [|reflexivity].
    apply Qeq_bool_iff in E. exfalso. apply Hab. rewrite <- Ha. exact E. }
  unfold in_floats, eq_float. cbn [existsb].
  split; [|split].
  - intros [H|H].
    + rewrite (Hne 1%Q 1%Q H) by reflexivity. reflexivity.
    + rewrite (Hne 2%Q 2%Q H) by reflexivity. rewrite orb_true_r.
      reflexivity.
  - intros H.
    rewrite (Hno 3%Q 1%Q H), (Hno 3%Q 2%Q H), (Hne 3%Q 3%Q H)
      by (reflexivity || discriminate). reflexivity.
  - intros [H|H].
    + rewrite (Hno 4%Q 1%Q H), (Hno 4%Q 2%Q H), (Hno 4%Q 3%Q H),
        (Hne 4%Q 4%Q H) by (reflexivity || discriminate). reflexivity.
    + rewrite (Hno 5%Q 1%Q H), (Hno 5%Q 2%Q H), (Hno 5%Q 3%Q H),
        (Hno 5%Q 4%Q H), (Hne 5%Q 5%Q H) by (reflexivity || discriminate).
      reflexivity.
Qed.

Lemma fashion_body_kept (i : nat) (d : list (str * value)) (s label : str)
      (q : Q) :
  dict_get (lit "reviewText") d = VStr s -> s <> [] ->
  dict_get (lit "overall") d = VNum q ->
  (if in_floats (VNum q) [1%Q; 2%Q] then Some (lit "negative")
   else if eq_float (VNum q) 3%Q then Some (lit "neutral")
        else if in_floats (VNum q) [4%Q; 5%Q]
             then Some (lit "positive") else None) = Some label ->
  fashion_body i (Some (VDict d))
  = Ok (Some (mkRecord i (strip s) (VStr label))).
Proof.
  intros Es Hs Eo El. unfold fashion_body. cbn [rbind].
  rewrite Es, Eo, El. destruct s; [congruence|]. reflexivity.
Qed.

(** X5.  What [format_fashion_reviews_for_evaluate] makes of the line at
    position [i], when it returns: nothing if its [reviewText] is missing,
    [null] or empty; and if its [reviewText] is a non-empty string, the
    record with id [i], the trimmed text and the label negative for a rating
    of 1 or 2, neutral for 3, positive for 4 or 5. *)
Theorem fashion_rating_labels
        (lines : list (option value)) (out : list record)
        (i : nat) (d : list (str * value)) :
  format_fashion_reviews_for_evaluate lines = Ok out ->
  nth_error lines i = Some (Some (VDict d)) ->
  (truthy (dict_get (lit "reviewText") d) = false ->
   forall r, In r out -> id r <> i)
  /\ (forall s q,
         dict_get (lit "reviewText") d = VStr s -> s <> [] ->
         dict_get (lit "overall") d = VNum q ->
         ((q == 1 \/ q == 2)%Q ->
          In (mkRecord i (strip s) (VStr (lit "negative"))) out)
         /\ ((q == 3)%Q ->
             In (mkRecord i (strip s) (VStr (lit "neutral"))) out)
         /\ ((q == 4 \/ q == 5)%Q ->
             In (mkRecord i (strip s) (VStr (lit "positive"))) out)).
Proof.
  intros E Hi. split.
  - intros Ht r Hr <-. apply format_fashion_emitted in E.
    destruct E as [Hall _].
    destruct (proj1 (Forall_forall _ _) Hall r Hr)
      as (d' & s & Hline & Hs & Hne & _).
    rewrite Hi in Hline. injection Hline as <-.
    rewrite Hs in Ht. destruct s; [congruence | discriminate].
  - intros s q Es Hs Eo.
    unfold format_fashion_reviews_for_evaluate in E.
    destruct (@for_each_complete (option value) fashion_body lines 0 [] out E)
      as [_ Hin].
    destruct (rating_label q) as (H12 & H3 & H45).
    split; [|split]; intros Hq;
      apply (Hin i (Some (VDict d)) _ Hi); cbn [Nat.add];
      apply (@fashion_body_kept i d s _ q Es Hs Eo); auto.
Qed.

Lemma fashion_rating_labels_witness :
  In (mkRecord 0 (strip (lit "Great product")) (VStr (lit "positive")))
     [mkRecord 0 (lit "Great product") (VStr (lit "positive"));
      mkRecord 3 (lit "Fell apart") (VStr (lit "negative"))].
Proof.
  destruct (@fashion_rating_labels
              four_lines
              [mkRecord 0 (lit "Great product") (VStr (lit "positive"));
               mkRecord 3 (lit "Fell apart") (VStr (lit "negative"))]
              0 [(lit "reviewText", VStr (lit "Great product"));
                 (lit "overall", VNum 5)]) as [_ H].
  - reflexivity.
  - reflexivity.
  - destruct (H (lit "Great product") 5%Q) as (_ & _ & H45).
    + reflexivity.
    + discriminate.
    + reflexivity.
    + apply H45. right. reflexivity.
Defined.

End KeepAndDrop.

(** ** The financial-news rows *)

Section News.

Local Open Scope result_scope.

Lemma news_pre_ok (pre : list news_row) :
  Forall news_well_formed pre ->
  forall idx y, In y pre -> exists o, news_body idx y = Ok o.
Proof.
  intros Hpre idx y Hy. apply news_body_returns.
  exact (proj1 (Forall_forall _ _) Hpre y Hy).
Qed.

(** X6.  A row of the financial-news frame whose sentiment or text cell is
    not a string (a missing cell, which pandas reads as NaN) is not skipped:
    after well-formed rows it makes [format_financial_news_for_evaluate]
    raise [AttributeError], and nothing is returned. *)
Theorem news_missing_cell_raises
        (pre : list news_row) (r : news_row) (post : list news_row) :
  Forall news_well_formed pre ->
  ~ is_str (news_sentiment r) \/ ~ is_str (news_text r) ->
  format_financial_news_for_evaluate (pre ++ r :: post)
  = Raise AttributeError.
Proof.
  intros Hpre Hr. unfold format_financial_news_for_evaluate.
  apply for_each_raises; [exact (news_pre_ok Hpre)|].
  unfold news_body. destruct r as [sv tv]. cbn [news_sentiment news_text] in *.
  destruct sv; try reflexivity. cbn [as_str rbind].
  destruct tv; try reflexivity.
  exfalso. destruct Hr as [H|H]; apply H; eexists; reflexivity.
Qed.

Lemma news_missing_cell_raises_witness :
  format_financial_news_for_evaluate
    ([mkNews (VStr (lit "positive")) (VStr (lit "Up 5%"))]
       ++ mkNews (VStr (lit "neutral")) VNonFinite :: [])
  = Raise AttributeError.
Proof.
  apply (@news_missing_cell_raises
           [mkNews (VStr (lit "positive")) (VStr (lit "Up 5%"))]
           (mkNews (VStr (lit "neutral")) VNonFinite) []).
  - repeat constructor. exists (lit "positive"), (lit "Up 5%").
    split; reflexivity.
  - right. intros [s E]. discriminate.
Defined.




End News.

(** ** The edit kinds *)

Section EditKinds.

Local Open Scope rng_scope.

Lemma split_at {A : Type} (l : list A) (i : nat) (c : A) :
  nth_error l i = Some c -> l = firstn i l ++ c :: skipn (S i) l.
Proof.
  revert i. induction l as [|a l IH]; intros [|i] E; try discriminate.
  - injection E as ->. reflexivity.
  - cbn [firstn skipn app]. f_equal. apply IH. exact E.
Qed.

Lemma split_at2 {A : Type} (l : list A) (i : nat) (c d : A) :
  nth_error l i = Some c -> nth_error l (S i) = Some d ->
  l = firstn i l ++ c :: d :: skipn (S (S i)) l.
Proof.
  revert i. induction l as [|a l IH]; intros [|i] Ec Ed; try discriminate.
  - injection Ec as ->. destruct l; [discriminate|].
    injection Ed as ->. reflexivity.
  - cbn [firstn app]. f_equal.
    change (skipn (S (S (S i))) (a :: l)) with (skipn (S (S i)) l).
    apply IH; assumption.
Qed.

Lemma slice_to_firstn (w : str) (idx : Z) :
  (0 <= idx <= len w)%Z -> slice_to idx w = firstn (Z.to_nat idx) w.
Proof. intros H. unfold slice_to. rewrite clip_in_range by exact H. auto. Qed.

Lemma slice_from_skipn (w : str) (idx : Z) (k : nat) :
  (0 <= idx)%Z -> (idx + Z.of_nat k <= len w)%Z ->
  slice_from (idx + Z.of_nat k) w = skipn (Z.to_nat idx + k) w.
Proof.
  intros H0 H. unfold slice_from. rewrite clip_in_range by lia.
  f_equal. lia.
Qed.

Lemma choice_value {A : Type} (seq : list A) (g : rng) :
  seq <> [] ->
  exists x, choice seq g = Ok (x, advance g) /\ In x seq.
Proof.
  intros Hne. destruct (choice_returns g Hne) as (x & g' & E & Hin & ->).
  exists x. auto.
Qed.

(** An edit attempt on a word of two or more characters returns, and what
    it returns is the edit of the kind that was drawn first. *)
Lemma edit_attempt_kinds (w : str) (severity : Z) (g : rng) :
  2 <= length w ->
  exists kind w' g',
    choice error_types g = Ok (kind, advance g)
    /\ edit_attempt w severity g = Ok (w', g')
    /\ edited kind severity w w'.
Proof.
  intros Hlen. pose proof (len_ge w Hlen) as HlenZ.
  destruct (@choice_value error_type error_types g) as (kind & Ec & _);
    [discriminate|].
  exists kind.
  assert (H : returns
                (if error_type_eqb kind substitution then
                   idx <- randint 0 (len w - 1) ;;
                   replacement <- choice alphabet ;;
                   ret (slice_to idx w ++ [replacement]
                                 ++ slice_from (idx + 1) w)
                 else if error_type_eqb kind transposition
                         && (2 <? len w)%Z then
                   idx <- randint 0 (len w - 2) ;;
                   a <- lift (item w (idx + 1)) ;;
                   b <- lift (item w idx) ;;
                   ret (slice_to idx w ++ [a] ++ [b]
                                 ++ slice_from (idx + 2) w)
                 else if error_type_eqb kind omission then
                   idx <- randint 0 (len w - 1) ;;
                   ret (slice_to idx w ++ slice_from (idx + 1) w)
                 else if error_type_eqb kind duplication then
                   idx <- randint 0 (len w - 1) ;;
                   c <- lift (item w idx) ;;
                   ret (slice_to idx w ++ [c; c] ++ slice_from (idx + 1) w)
                 else if error_type_eqb kind scramble
                         && (severity =? 3)%Z then
                   sample w (length w)
                 else ret w)
                (advance g)
                (fun w' _ => edited kind severity w w')).
  { destruct kind; cbn [error_type_eqb andb edited].
    - (* substitution *)
      eapply returns_bind; [apply randint_returns; lia|].
      intros idx g2 [Hidx ->].
      eapply returns_bind; [apply choice_returns; discriminate|].
      intros x g3 [Hx ->]. apply returns_ret.
      destruct (nth_error w (Z.to_nat idx)) as [c|] eqn:Ec';
        [|apply nth_error_None in Ec'; unfold len in *; lia].
      exists (firstn (Z.to_nat idx) w), c, (skipn (S (Z.to_nat idx)) w), x.
      split; [apply split_at, Ec'|]. split; [|exact Hx].
      rewrite slice_to_firstn by lia.
      change 1%Z with (Z.of_nat 1). rewrite slice_from_skipn by (simpl; lia).
      rewrite Nat.add_1_r. reflexivity.
    - (* transposition *)
      destruct (2 <? len w)%Z eqn:H2; [|apply returns_ret; reflexivity].
      apply Z.ltb_lt in H2.
      eapply returns_bind; [apply randint_returns; lia|].
      intros idx g2 [Hidx ->].
      eapply returns_bind; [apply item_returns; lia|].
      intros a g3 [Ha ->].
      eapply returns_bind; [apply item_returns; lia|].
      intros b g4 [Hb ->]. apply returns_ret.
      replace (Z.to_nat (idx + 1)) with (S (Z.to_nat idx)) in Ha by lia.
      exists (firstn (Z.to_nat idx) w), b, a,
        (skipn (S (S (Z.to_nat idx))) w).
      split; [apply split_at2; assumption|].
      rewrite slice_to_firstn by lia.
      change 2%Z with (Z.of_nat 2). rewrite slice_from_skipn by (simpl; lia).
      replace (Z.to_nat idx + 2) with (S (S (Z.to_nat idx))) by lia.
      reflexivity.
    - (* omission *)
      eapply returns_bind; [apply randint_returns; lia|].
      intros idx g2 [Hidx ->]. apply returns_ret.
      destruct (nth_error w (Z.to_nat idx)) as [c|] eqn:Ec';
        [|apply nth_error_None in Ec'; unfold len in *; lia].
      exists (firstn (Z.to_nat idx) w), c, (skipn (S (Z.to_nat idx)) w).
      split; [apply split_at, Ec'|].
      rewrite slice_to_firstn by lia.
      change 1%Z with (Z.of_nat 1). rewrite slice_from_skipn by (simpl; lia).
      rewrite Nat.add_1_r. reflexivity.
    - (* duplication *)
      eapply returns_bind; [apply randint_returns; lia|].
      intros idx g2 [Hidx ->].
      eapply returns_bind; [apply item_returns; lia|].
      intros c g3 [Hc ->]. apply returns_ret.
      exists (firstn (Z.to_nat idx) w), c, (skipn (S (Z.to_nat idx)) w).
      split; [apply split_at, Hc|].
      rewrite slice_to_firstn by lia.
      change 1%Z with (Z.of_nat 1). rewrite slice_from_skipn by (simpl; lia).
      rewrite Nat.add_1_r. reflexivity.
    - (* scramble *)
      destruct (severity =? 3)%Z; [|apply returns_ret; reflexivity].
      unfold sample. rewrite Nat.leb_refl.
      eapply returns_weaken; [apply sample_loop_returns; reflexivity|].
      intros w' g' (Hperm & _). exact Hperm. }
  destruct H as (w' & g' & E & Hed).
  exists w', g'. split; [exact Ec|]. split; [|exact Hed].
  unfold edit_attempt. unfold bind at 1. rewrite Ec. exact E.
Qed.

Lemma edited_length (kind : error_type) (severity : Z) (w w' : str) :
  edited kind severity w w' ->
  match kind with
  | omission => S (length w') = length w
  | duplication => length w' = S (length w)
  | _ => length w' = length w
  end.
Proof.
  destruct kind; cbn [edited].
  - intros (a & c & b & x & -> & -> & _). rewrite !length_app. reflexivity.
  - destruct (2 <? len w)%Z; [|intros ->; reflexivity].
    intros (a & c & d & b & -> & ->). rewrite !length_app. reflexivity.
  - intros (a & c & b & -> & ->). rewrite !length_app. simpl. lia.
  - intros (a & c & b & -> & ->). rewrite !length_app. simpl. lia.
  - destruct (severity =? 3)%Z; [|intros ->; reflexivity].
    apply Permutation_length.
Qed.

(** X8.  One edit attempt on a word of two or more characters always
    returns, and does to the word what the kind drawn first says:
    substitution puts a lowercase letter in the place of one character,
    transposition swaps two neighbours (nothing on a word of two
    characters), omission takes one character out, duplication doubles one,
    scramble permutes the word at severity 3 (nothing below).  So the length
    goes down by one on omission, up by one on duplication, and stays
    otherwise. *)
Theorem edit_attempt_by_kind (w : str) (severity : Z) (g : rng) :
  2 <= length w ->
  exists kind w' g',
    choice error_types g = Ok (kind, advance g)
    /\ edit_attempt w severity g = Ok (w', g')
    /\ edited kind severity w w'
    /\ match kind with
       | omission => S (length w') = length w
       | duplication => length w' = S (length w)
       | _ => length w' = length w
       end.
Proof.
  intros Hlen.
  destruct (@edit_attempt_kinds w severity g Hlen)
    as (kind & w' & g' & Ec & E & Hed).
  exists kind, w', g'. split; [exact Ec|]. split; [exact E|].
  split; [exact Hed | exact (@edited_length kind severity w w' Hed)].
Qed.

Lemma edit_attempt_by_kind_witness :
  exists kind w' g',
    choice error_types (rng_of_list [1%N; 0%N] 0%N)
    = Ok (kind, advance (rng_of_list [1%N; 0%N] 0%N))
    /\ edit_attempt (lit "at") 3 (rng_of_list [1%N; 0%N] 0%N) = Ok (w', g')
    /\ edited kind 3 (lit "at") w'.
Proof.
  destruct (@edit_attempt_by_kind (lit "at") 3%Z (rng_of_list [1%N; 0%N] 0%N))
    as (kind & w' & g' & Ec & E & Hed & _).
  - simpl. lia.
  - exists kind, w', g'. auto.
Defined.

End EditKinds.

(** ** What corruption keeps of a text *)

Section Closure.

(** A relation between words that holds from a word to itself, composes,
    and holds across one edit attempt, holds across [introduce_error]. *)
Variable R : str -> str -> Prop.

Hypothesis R_refl : forall w, R w w.
Hypothesis R_trans : forall a b c, R a b -> R b c -> R a c.
Hypothesis R_edit :
  forall kind severity w w',
    2 <= length w -> edited kind severity w w' -> R w w'.

Lemma introduce_error_closure (fuel : nat) :
  forall (w : str) (severity : Z) (g : rng) (w' : str) (g' : rng),
    introduce_error fuel w severity g = Ok (w', g') -> R w w'.
Proof.
  induction fuel as [|fuel IH]; intros w severity g w' g' E;
    destruct (Nat.lt_ge_cases (length w) 2) as [Hs|Hl];
    try (rewrite introduce_error_short in E by exact Hs;
         injection E as <- _; apply R_refl).
  - cbn [introduce_error] in E.
    replace (len w <? 2)%Z with false in E
      by (symmetry; apply Z.ltb_ge; unfold len; lia).
    discriminate.
  - destruct (@edit_attempt_kinds w severity g Hl)
      as (kind & w1 & g1 & _ & E1 & Hed).
    rewrite (@introduce_error_step fuel w severity g w1 g1 Hl E1) in E.
    cbv zeta in E. pose proof (R_edit kind severity w w1 Hl Hed) as Hw1.
    assert (Hgo : introduce_error fuel w1 severity (advance g1) = Ok (w', g')
                  -> R w w')
      by (intros E'; eapply R_trans; [exact Hw1 | eapply IH, E']).
    destruct (severity =? 3)%Z.
    + destruct (float_lt (unit_float (tape g1 (pos g1))) float_0_5);
        [exact (Hgo E) | injection E as <- _; exact Hw1].
    + destruct (severity =? 2)%Z; [|injection E as <- _; exact Hw1].
      destruct (float_lt (unit_float (tape g1 (pos g1))) float_0_2);
        [exact (Hgo E) | injection E as <- _; exact Hw1].
Qed.

Lemma Forall2_refl_R (ws : list str) : Forall2 R ws ws.
Proof. induction ws; constructor; auto. Qed.

Lemma Forall2_trans_R (a b c : list str) :
  Forall2 R a b -> Forall2 R b c -> Forall2 R a c.
Proof.
  intros Hab. revert c. induction Hab as [|x y a b Hxy Hab IH]; intros c Hbc.
  - inversion Hbc. constructor.
  - inversion Hbc as [|y' z b' c' Hyz Hbc' ]; subst.
    constructor; [eapply R_trans; eassumption | apply IH; assumption].
Qed.

Lemma Forall2_set_R (ws : list str) (i : nat) (w w' : str) :
  nth_error ws i = Some w -> R w w' -> Forall2 R ws (list_set i w' ws).
Proof.
  revert i. induction ws as [|a ws IH]; intros [|i] E Hw; try discriminate.
  - injection E as ->. constructor; [exact Hw | apply Forall2_refl_R].
  - cbn [list_set]. constructor; [apply R_refl | apply IH; assumption].
Qed.

End Closure.

Section Rounds.

Local Open Scope rng_scope.

(** One round of the loop of [add_errors_to_text], read back from its
    result. *)
Lemma modify_words_round (fuel : nat) (degree : Z) (n : nat)
      (ws ws' : list str) (g g' : rng) :
  modify_words fuel degree (S n) ws g = Ok (ws', g') ->
  exists i w w' g2,
    nth_error ws i = Some w
    /\ introduce_error fuel w degree (advance g) = Ok (w', g2)
    /\ modify_words fuel degree n (list_set i w' ws) g2 = Ok (ws', g').
Proof.
  intros E. cbn [modify_words] in E. unfold bind at 1 in E.
  destruct (Z_lt_le_dec (len ws - 1) 0) as [Hempty|Hne].
  { rewrite randint_empty in E by exact Hempty. discriminate. }
  rewrite randint_value in E by exact Hne.
  set (i := N.to_nat (tape g (pos g)
                      mod N.of_nat (Z.to_nat (len ws - 1 + 1 - 0)))) in E.
  assert (Hi : i < length ws).
  { assert (tape g (pos g) mod N.of_nat (Z.to_nat (len ws - 1 + 1 - 0))
            < N.of_nat (Z.to_nat (len ws - 1 + 1 - 0)))%N
      by (apply N.mod_lt; unfold len in *; lia).
    unfold i, len in *. lia. }
  rewrite Z.add_0_l in E. unfold bind at 1 in E. unfold lift, item in E.
  replace (Z.of_nat i <? 0)%Z with false in E
    by (symmetry; apply Z.ltb_ge; lia).
  replace (Z.of_nat i <? 0)%Z with false in E
    by (symmetry; apply Z.ltb_ge; lia).
  rewrite Nat2Z.id in E.
  destruct (nth_error ws i) as [w|] eqn:Ew;
    [|apply nth_error_None in Ew; lia].
  unfold bind at 1 in E.
  destruct (introduce_error fuel w degree (advance g)) as [[w' g2]| |] eqn:Ei;
    try discriminate.
  exists i, w, w', g2. auto.
Qed.

Lemma target_rounds (degree : Z) (n : nat) :
  (if (degree =? 1)%Z then Some (Nat.max 1 (n / 50))
   else if (degree =? 2)%Z then Some (Nat.max 1 (n / 10))
        else if (degree =? 3)%Z then Some (Nat.max 1 (n / 5)) else None)
  = if (degree =? 1)%Z || (degree =? 2)%Z || (degree =? 3)%Z
    then Some (rounds degree n) else None.
Proof.
  unfold rounds.
  destruct (degree =? 1)%Z; [reflexivity|].
  destruct (degree =? 2)%Z; [reflexivity|].
  destruct (degree =? 3)%Z; reflexivity.
Qed.

(** [add_errors_to_text], read back from its result. *)
Lemma add_errors_to_text_rounds (fuel : nat) (txt : str) (degree : Z)
      (g : rng) (t' : str) (g' : rng) :
  add_errors_to_text fuel txt degree g = Ok (t', g') ->
  valid_degree degree
  /\ exists ws',
      modify_words fuel degree (rounds degree (length (split txt)))
                   (split txt) g = Ok (ws', g')
      /\ t' = join (lit " ") ws'.
Proof.
  unfold add_errors_to_text. rewrite target_rounds. intros E.
  destruct ((degree =? 1)%Z || (degree =? 2)%Z || (degree =? 3)%Z) eqn:Ed;
    [|discriminate].
  split.
  - unfold valid_degree. rewrite !orb_true_iff, !Z.eqb_eq in Ed. tauto.
  - unfold bind in E.
    destruct (modify_words fuel degree (rounds degree (length (split txt)))
                           (split txt) g) as [[ws' g2]| |];
      try discriminate.
    injection E as <- <-. exists ws'. auto.
Qed.

Section Relation.

Variable R : str -> str -> Prop.

Hypothesis R_refl : forall w, R w w.
Hypothesis R_trans : forall a b c, R a b -> R b c -> R a c.
Hypothesis R_edit :
  forall kind severity w w',
    2 <= length w -> edited kind severity w w' -> R w w'.

Lemma modify_words_related (fuel : nat) (degree : Z) (n : nat) :
  forall (ws ws' : list str) (g g' : rng),
    modify_words fuel degree n ws g = Ok (ws', g') -> Forall2 R ws ws'.
Proof.
  induction n as [|n IH]; intros ws ws' g g' E.
  - injection E as <- _. apply (@Forall2_refl_R R R_refl).
  - apply modify_words_round in E.
    destruct E as (i & w & w' & g2 & Ew & Ei & E).
    apply (@Forall2_trans_R R R_trans ws (list_set i w' ws) ws').
    + apply (@Forall2_set_R R R_refl ws i w w' Ew).
      exact (@introduce_error_closure R R_refl R_trans R_edit
               fuel w degree (advance g) w' g2 Ei).
    + eapply IH, E.
Qed.

End Relation.

End Rounds.

Section Kept.

Lemma letters_added_refl (w : str) : letters_added w w.
Proof. apply Forall_forall. auto. Qed.

Lemma letters_added_trans (a b c : str) :
  letters_added a b -> letters_added b c -> letters_added a c.
Proof.
  unfold letters_added. rewrite !Forall_forall. intros Hab Hbc x Hx.
  destruct (Hbc x Hx) as [H|H]; auto.
Qed.

Lemma letters_added_edit (kind : error_type) (severity : Z) (w w' : str) :
  2 <= length w -> edited kind severity w w' -> letters_added w w'.
Proof.
  intros _. unfold letters_added. rewrite Forall_forall.
  destruct kind; cbn [edited].
  - intros (a & c & b & x & -> & -> & Hx) y Hy.
    apply in_app_or in Hy. destruct Hy as [Hy|[<-|Hy]]; [left|right|left];
      auto; apply in_or_app; [left | right; right]; exact Hy.
  - destruct (2 <? len w)%Z; [|intros -> y Hy; left; exact Hy].
    intros (a & c & d & b & -> & ->) y Hy. left.
    apply in_app_or in Hy. apply in_or_app.
    destruct Hy as [Hy|[<-|[<-|Hy]]]; [left; exact Hy|right..];
      simpl; auto.
  - intros (a & c & b & -> & ->) y Hy. left.
    apply in_app_or in Hy. apply in_or_app.
    destruct Hy as [Hy|Hy]; [left | right; right]; exact Hy.
  - intros (a & c & b & -> & ->) y Hy. left.
    apply in_app_or in Hy. apply in_or_app.
    destruct Hy as [Hy|[<-|[<-|Hy]]]; [left; exact Hy|right..];
      simpl; auto.
  - destruct (severity =? 3)%Z; [|intros -> y Hy; left; exact Hy].
    intros Hperm y Hy. left. eapply Permutation_in; eassumption.
Qed.

Lemma still_word_refl (w : str) : still_word w w.
Proof. intros H. exact H. Qed.

Lemma still_word_trans (a b c : str) :
  still_word a b -> still_word b c -> still_word a c.
Proof. unfold still_word. auto. Qed.

Lemma still_word_edit (kind : error_type) (severity : Z) (w w' : str) :
  2 <= length w -> edited kind severity w w' -> still_word w w'.
Proof.
  intros Hlen Hed [_ Hall]. split.
  - pose proof (@edited_length kind severity w w' Hed) as Hl.
    intros ->. destruct kind; simpl in Hl; lia.
  - pose proof (@letters_added_edit kind severity w w' Hlen Hed) as Hl.
    unfold letters_added in Hl. rewrite Forall_forall in *.
    intros c Hc. destruct (Hl c Hc) as [H|H]; [apply Hall, H|].
    exact (proj1 (Forall_forall _ _) alphabet_no_space c H).
Qed.

Lemma split_from_chars (s : str) :
  forall (cur w : str) (c : char),
    In w (split_from cur s) -> In c w -> In c cur \/ In c s.
Proof.
  induction s as [|a s IH]; intros cur w c Hw Hc; simpl in Hw.
  - destruct cur as [|b cur']; [contradiction|].
    destruct Hw as [<-|[]]. left. apply in_rev. exact Hc.
  - destruct (is_space a).
    + destruct cur as [|b cur'].
      * destruct (IH [] w c Hw Hc) as [[]|H]. right. right. exact H.
      * destruct Hw as [<-|Hw]; [left; apply in_rev; exact Hc|].
        destruct (IH [] w c Hw Hc) as [[]|H]. right. right. exact H.
    + destruct (IH (a :: cur) w c Hw Hc) as [[<-|H]|H];
        [right; left; reflexivity | left; exact H | right; right; exact H].
Qed.

Lemma join_chars (sep : str) (ws : list str) (c : char) :
  In c (join sep ws) -> In c sep \/ exists w, In w ws /\ In c w.
Proof.
  induction ws as [|w ws IH]; [contradiction|].
  destruct ws as [|w2 ws'].
  - simpl. intros Hc. right. exists w. auto.
  - change (join sep (w :: w2 :: ws'))
      with (w ++ sep ++ join sep (w2 :: ws')).
    intros Hc. apply in_app_or in Hc. destruct Hc as [Hc|Hc].
    + right. exists w. split; [left; reflexivity | exact Hc].
    + apply in_app_or in Hc. destruct Hc as [Hc|Hc]; [left; exact Hc|].
      destruct (IH Hc) as [H|(w0 & Hw0 & H)]; [left; exact H|].
      right. exists w0. split; [right; exact Hw0 | exact H].
Qed.

Lemma Forall2_In_r {A B : Type} (P : A -> B -> Prop) (l : list A)
      (l' : list B) (y : B) :
  Forall2 P l l' -> In y l' -> exists x, In x l /\ P x y.
Proof.
  induction 1 as [|a b l l' Hab _ IH]; [contradiction|].
  intros [<-|Hy]; [exists a; split; [left; reflexivity | exact Hab]|].
  destruct (IH Hy) as (x & Hx & Hp). exists x. split; [right|]; assumption.
Qed.

Lemma Forall2_Forall_r {A : Type} (P : A -> Prop) (l l' : list A) :
  Forall2 (fun x y => P x -> P y) l l' -> Forall P l -> Forall P l'.
Proof.
  induction 1 as [|a b l l' Hab _ IH]; [auto|].
  intros Hl. inversion Hl; subst. constructor; auto.
Qed.

(** X9.  Corruption brings no character into a text but lowercase letters
    and the single spaces between the words: every character of the text
    [add_errors_to_text] returns is the space, or is no whitespace and is
    one of a to z or a character of the text it was given. *)
Theorem corruption_adds_only_letters
        (fuel : nat) (txt : str) (degree : Z) (g : rng)
        (t' : str) (g' : rng) :
  add_errors_to_text fuel txt degree g = Ok (t', g') ->
  Forall (fun c => c = 32%N
                   \/ (is_space c = false /\ (In c alphabet \/ In c txt))) t'.
Proof.
  intros E. apply add_errors_to_text_rounds in E.
  destruct E as (_ & ws' & E & ->).
  pose proof (@modify_words_related still_word still_word_refl
                still_word_trans still_word_edit _ _ _ _ _ _ _ E) as Hword.
  apply (@Forall2_Forall_r str wordlike (split txt) ws') in Hword;
    [|apply split_wordlike].
  apply (@modify_words_related letters_added letters_added_refl
           letters_added_trans letters_added_edit) in E.
  apply Forall_forall. intros c Hc. apply join_chars in Hc.
  destruct Hc as [[<-|[]]|(w' & Hw' & Hc)]; [left; reflexivity|].
  right. split.
  - destruct (proj1 (Forall_forall _ _) Hword w' Hw') as [_ Hns].
    exact (proj1 (Forall_forall _ _) Hns c Hc).
  - destruct (@Forall2_In_r str str letters_added (split txt) ws' w' E Hw')
      as (w & Hw & Hl).
    unfold letters_added in Hl.
    destruct (proj1 (Forall_forall _ _) Hl c Hc) as [H|H];
      [|left; exact H].
    right. destruct (@split_from_chars txt [] w c Hw H) as [[]|Hin].
    exact Hin.
Qed.

Lemma corruption_adds_only_letters_witness :
  Forall (fun c => c = 32%N
                   \/ (is_space c = false /\ (In c alphabet \/ In c fox)))
         (lit "the quick brown fzx jumps over the lazy dog").
Proof.
  apply (@corruption_adds_only_letters
           1 fox 1%Z (rng_of_list [3%N; 0%N; 1%N; 25%N] 0%N)
           (lit "the quick brown fzx jumps over the lazy dog")
           (mkRng (tape (rng_of_list [3%N; 0%N; 1%N; 25%N] 0%N)) 4)).
  reflexivity.
Defined.

(** X10.  The text [add_errors_to_text] returns is its own words joined by
    single spaces: whatever whitespace separated or surrounded the words of
    the input is gone, corrupted or not. *)
Theorem corrupted_text_single_spaced
        (fuel : nat) (txt : str) (degree : Z) (g : rng)
        (t' : str) (g' : rng) :
  add_errors_to_text fuel txt degree g = Ok (t', g') ->
  t' = join (lit " ") (split t').
Proof.
  intros E. apply add_errors_to_text_rounds in E.
  destruct E as (_ & ws' & E & ->).
  apply (@modify_words_related still_word still_word_refl
           still_word_trans still_word_edit) in E.
  rewrite split_join; [reflexivity|].
  exact (@Forall2_Forall_r str wordlike (split txt) ws' E
           (split_wordlike txt)).
Qed.

Lemma corrupted_text_single_spaced_witness :
  lit "a b" = join (lit " ") (split (lit "a b")).
Proof.
  apply (@corrupted_text_single_spaced
           0 (lit "  a    b ") 1%Z (rng_of_list [] 0%N)
           (lit "a b") (mkRng (tape (rng_of_list [] 0%N)) 1)).
  reflexivity.
Defined.

End Kept.

(** ** How much corruption changes *)

Section HowMuch.

Local Open Scope rng_scope.

Lemma changed_words_triangle (a : list str) :
  forall b c : list str,
    length a = length b ->
    changed_words a c <= changed_words a b + changed_words b c.
Proof.
  induction a as [|x a IH]; intros [|y b] [|z c] Hlen; simpl in *;
    try lia; try discriminate.
  injection Hlen as Hlen. specialize (IH b c Hlen).
  destruct (str_eq_dec x z) as [->|Hxz];
    [rewrite str_eqb_refl; lia|].
  assert (Hz : str_eqb x z = false)
    by (unfold str_eqb; destruct (str_eq_dec x z); congruence).
  rewrite Hz.
  destruct (str_eq_dec x y) as [->|Hxy].
  - rewrite str_eqb_refl, Hz. lia.
  - assert (Hy : str_eqb x y = false)
      by (unfold str_eqb; destruct (str_eq_dec x y); congruence).
    rewrite Hy. lia.
Qed.

Lemma modify_words_changed (fuel : nat) (degree : Z) (n : nat) :
  forall (ws ws' : list str) (g g' : rng),
    modify_words fuel degree n ws g = Ok (ws', g') ->
    length ws' = length ws /\ changed_words ws ws' <= n.
Proof.
  induction n as [|n IH]; intros ws ws' g g' E.
  - injection E as <- _. rewrite changed_words_same. auto.
  - apply modify_words_round in E.
    destruct E as (i & w & w' & g2 & _ & _ & E).
    apply IH in E. destruct E as [Hlen Hch].
    rewrite list_set_length in Hlen. split; [exact Hlen|].
    pose proof (@changed_words_triangle ws (list_set i w' ws) ws'
                  (eq_sym (list_set_length i w' ws))) as Htri.
    pose proof (changed_words_set ws i w'). lia.
Qed.

(** X11.  Corruption leaves all but a few words of a text in place: the
    words of the text [add_errors_to_text] returns differ from the words of
    its input at no more positions than there are rounds, that is
    max(1, n // 50) at degree 1, max(1, n // 10) at degree 2 and
    max(1, n // 5) at degree 3 for a text of n words. *)
Theorem corruption_changes_few_words
        (fuel : nat) (txt : str) (degree : Z) (g : rng)
        (t' : str) (g' : rng) :
  add_errors_to_text fuel txt degree g = Ok (t', g') ->
  length (split t') = length (split txt)
  /\ changed_words (split txt) (split t')
     <= rounds degree (length (split txt)).
Proof.
  intros E. apply add_errors_to_text_rounds in E.
  destruct E as (_ & ws' & E & ->).
  pose proof (@modify_words_related still_word still_word_refl
                still_word_trans still_word_edit _ _ _ _ _ _ _ E) as Hword.
  apply (@Forall2_Forall_r str wordlike (split txt) ws') in Hword;
    [|apply split_wordlike].
  rewrite split_join by exact Hword.
  eapply modify_words_changed, E.
Qed.

Lemma corruption_changes_few_words_witness :
  length (split (lit "the quick brown fzx jumps over the lazy dog"))
  = length (split fox)
  /\ changed_words (split fox)
       (split (lit "the quick brown fzx jumps over the lazy dog"))
     <= rounds 1 (length (split fox)).
Proof.
  apply (@corruption_changes_few_words
           1 fox 1%Z (rng_of_list [3%N; 0%N; 1%N; 25%N] 0%N)
           (lit "the quick brown fzx jumps over the lazy dog")
           (mkRng (tape (rng_of_list [3%N; 0%N; 1%N; 25%N] 0%N)) 4)).
  reflexivity.
Defined.

Lemma list_set_same {A : Type} (l : list A) (i : nat) (x : A) :
  nth_error l i = Some x -> list_set i x l = l.
Proof.
  revert i. induction l as [|a l IH]; intros [|i] E; try discriminate.
  - injection E as ->. reflexivity.
  - cbn [list_set]. f_equal. apply IH. exact E.
Qed.

Lemma modify_words_short (fuel : nat) (degree : Z) (n : nat)
      (ws : list str) :
  ws <> [] -> Forall (fun w => length w < 2) ws ->
  forall g : rng,
    modify_words fuel degree n ws g = Ok (ws, mkRng (tape g) (pos g + n)).
Proof.
  intros Hne Hshort.
  assert (Hlen : (1 <= len ws)%Z)
    by (unfold len; destruct ws; [congruence | simpl; lia]).
  induction n as [|n IH]; intros g.
  - cbn [modify_words]. unfold ret. rewrite Nat.add_0_r.
    destruct g. reflexivity.
  - cbn [modify_words]. unfold bind at 1.
    destruct (@randint_returns 0 (len ws - 1) g) as (idx & g1 & E & Hidx & ->);
      [lia|].
    rewrite E. unfold bind at 1.
    destruct (@item_returns str ws idx (advance g)) as (w & g2 & Ew & Hw & ->);
      [lia|].
    rewrite Ew. unfold bind at 1.
    rewrite introduce_error_short
      by exact (proj1 (Forall_forall _ _) Hshort w (nth_error_In _ _ Hw)).
    rewrite (list_set_same _ _ Hw), IH. cbn [advance tape pos].
    f_equal. f_equal. f_equal. lia.
Qed.

(** X12.  A text whose words all have fewer than two characters cannot be
    corrupted: at a degree of 1, 2 or 3, on every tape and with any fuel,
    [add_errors_to_text] returns its words joined by single spaces, after one
    draw per round. *)
Theorem short_words_never_corrupted
        (fuel : nat) (txt : str) (degree : Z) (g : rng) :
  valid_degree degree -> split txt <> [] ->
  Forall (fun w => length w < 2) (split txt) ->
  add_errors_to_text fuel txt degree g
  = Ok (join (lit " ") (split txt),
        mkRng (tape g) (pos g + rounds degree (length (split txt)))).
Proof.
  intros Hdeg Hne Hshort. unfold add_errors_to_text. rewrite target_rounds.
  replace ((degree =? 1)%Z || (degree =? 2)%Z || (degree =? 3)%Z) with true
    by (destruct Hdeg as [-> | [-> | ->]]; reflexivity).
  unfold bind. rewrite (modify_words_short fuel degree _ Hne Hshort).
  reflexivity.
Qed.

Lemma short_words_never_corrupted_witness :
  add_errors_to_text 0 (lit " I  a ") 3 (rng_of_list [] 0%N)
  = Ok (join (lit " ") (split (lit " I  a ")),
        mkRng (tape (rng_of_list [] 0%N))
              (pos (rng_of_list [] 0%N)
               + rounds 3 (length (split (lit " I  a "))))).
Proof.
  apply (@short_words_never_corrupted
           0 (lit " I  a ") 3%Z (rng_of_list [] 0%N)).
  - right. right. reflexivity.
  - vm_compute. discriminate.
  - vm_compute. repeat constructor.
Defined.

End HowMuch.

(** ** Degrees, exceptions and the pipeline *)

Section Pipeline.

(** X13.  A degree other than 1, 2 and 3: [inject_spelling_errors] raises
    [UnboundLocalError] on every frame that has a row, whatever its texts
    and before any draw, and returns the empty frame as it is. *)
Theorem inject_spelling_errors_unknown_degree
        (fuel : nat) (degree : Z) (g : rng) :
  ~ valid_degree degree ->
  inject_spelling_errors fuel [] degree g = Ok ([], g)
  /\ forall r df,
      inject_spelling_errors fuel (r :: df) degree g
      = Raise UnboundLocalError.
Proof.
  intros Hdeg. split; [reflexivity|]. intros r df.
  unfold inject_spelling_errors. cbn [apply_text]. unfold bind at 1.
  rewrite (@add_errors_to_text_unbound fuel degree (text r) g Hdeg).
  reflexivity.
Qed.

Lemma inject_spelling_errors_unknown_degree_witness :
  inject_spelling_errors 5 [mkRecord 0 fox (VStr (lit "positive"))] 4
                         (rng_of_list [] 0%N)
  = Raise UnboundLocalError.
Proof.
  destruct (@inject_spelling_errors_unknown_degree
              5 4%Z (rng_of_list [] 0%N)) as [_ H].
  - intros [H|[H|H]]; discriminate.
  - apply H.
Defined.








End Pipeline.

(** ** Reviews without markup *)

Section PlainReviews.




End PlainReviews.
